(** * LibrarySourcedBlockPicker: a model of the picker component and of the
      author view's save handler

    Source: common/lib/xmodule/xmodule/assets/library_source_block/
    LibrarySourcedBlockPicker.jsx (the React component
    [LibrarySourcedBlockPicker] and the handler installed by
    [window.LibrarySourceBlockAuthorView]).

    The component is an event-driven object: every handler runs to completion,
    network calls and debounce timers complete in later turns of the event
    loop.  The model is a transition system on a [World] that holds the
    component instance ([this.state], [this.props], the two instance fields
    holding debounced functions), the two search inputs of the DOM that the
    persisted events point to, the requests issued with [fetch], and the
    'save' events triggered on the host element. *)

From Stdlib Require Import List String Ascii Arith Lia Bool NArith.
Import ListNotations.
Local Open Scope string_scope.
Local Open Scope list_scope.
Local Open Scope nat_scope.
Set Warnings "-register-all".

(** ** ECMAScript [Set] of strings

    A [Set] keeps its elements in insertion order and compares them with
    SameValueZero, which on strings is equality of the strings. *)
Module JSSet.

Definition t := list string.

Definition empty : t := [].

(** [Set.prototype.has] *)
Definition has (s : t) (x : string) : bool := existsb (String.eqb x) s.

(** [Set.prototype.add]: appends the value unless it is already there. *)
Definition add (s : t) (x : string) : t := if has s x then s else s ++ [x].

(** [Set.prototype.delete] *)
Definition delete (s : t) (x : string) : t :=
  filter (fun y => negb (String.eqb x y)) s.

(** [new Set(iterable)]: adds the elements of the iterable in order. *)
Definition of_iterable (l : list string) : t := fold_left add l empty.

(** [Array.from(set)]: the elements in insertion order. *)
Definition to_array (s : t) : list string := s.

End JSSet.

Module Picker.

(** ** Data *)

Record Library := { lib_id : string; title : string }.

Record Block := { block_id : string; display_name : string }.

Module Props.
Record t := { saveUrl : string; selectedXblocks : list string }.
(** [LibrarySourcedBlockPicker.defaultProps] *)
Definition defaultProps : t := {| saveUrl := ""; selectedXblocks := [] |}.
End Props.

(** [this.state]; [selectedLibrary] is [None] for [undefined]. *)
Record State := {
  libraries : list Library;
  xblocks : list Block;
  searchedLibrary : string;
  searchedXblock : string;
  selectedLibrary : option string;
  selectedXblocks : JSSet.t
}.

(** A call of [fetchLibraries] or [fetchXblocks] with its arguments. *)
Inductive Query :=
| ListLibraries (text_search : string)
| ListBlocks (library : option string) (text_search : string).

(** A value interpolated into a template literal. *)
Definition interpolate (v : option string) : string :=
  match v with Some s => s | None => "undefined" end.

(** The URL handed to [fetch]. *)
Definition url (q : Query) : string :=
  match q with
  | ListLibraries text_search =>
      ("/api/libraries/v2?text_search=" ++ text_search)%string
  | ListBlocks library text_search =>
      ("/api/libraries/v2/" ++ interpolate library
         ++ "/blocks?text_search=" ++ text_search)%string
  end.

(** The two search inputs rendered by the component.  A change event keeps a
    reference to its target, and [event.target.value] reads the value the
    input has at the moment of the read. *)
Inductive Elem := LibrarySearchInput | XBlockSearchInput.

Record DOM := { librarySearchValue : string; xblockSearchValue : string }.

Definition value (d : DOM) (e : Elem) : string :=
  match e with
  | LibrarySearchInput => librarySearchValue d
  | XBlockSearchInput => xblockSearchValue d
  end.

Definition set_value (e : Elem) (v : string) (d : DOM) : DOM :=
  match e with
  | LibrarySearchInput =>
      {| librarySearchValue := v; xblockSearchValue := xblockSearchValue d |}
  | XBlockSearchInput =>
      {| librarySearchValue := librarySearchValue d; xblockSearchValue := v |}
  end.

(** A persisted change event. *)
Record ChangeEvent := { target : Elem }.

(** The value returned by [_.debounce(callback, 300)]: the closure captured
    the event of the call that created it; [timer] is the time left until the
    callback runs, [None] when no call is waiting. *)
Record Debounced := { captured : ChangeEvent; timer : option nat }.

(** The debounce window. *)
Definition wait : nat := 300.

(** The parameters of a 'save' event triggered on
    [#library-sourced-block-picker]. *)
Record SaveParams := { save_url : string; source_block_ids : list string }.

Record World := {
  mounted : bool;
  props : Props.t;
  state : State;
  debouncedFetchLibraries : option Debounced;
  debouncedFetchXblocks : option Debounced;
  dom : DOM;
  issued : list Query;          (* every fetch so far, oldest first *)
  pending : list nat;           (* positions in [issued] not yet settled *)
  triggered : list SaveParams   (* 'save' events so far, oldest first *)
}.

(** ** Field updates *)

Definition set_state (s : State) (w : World) : World :=
  {| mounted := mounted w; props := props w; state := s;
     debouncedFetchLibraries := debouncedFetchLibraries w;
     debouncedFetchXblocks := debouncedFetchXblocks w;
     dom := dom w; issued := issued w; pending := pending w;
     triggered := triggered w |}.

Definition set_debouncedFetchLibraries (d : option Debounced) (w : World) : World :=
  {| mounted := mounted w; props := props w; state := state w;
     debouncedFetchLibraries := d;
     debouncedFetchXblocks := debouncedFetchXblocks w;
     dom := dom w; issued := issued w; pending := pending w;
     triggered := triggered w |}.

Definition set_debouncedFetchXblocks (d : option Debounced) (w : World) : World :=
  {| mounted := mounted w; props := props w; state := state w;
     debouncedFetchLibraries := debouncedFetchLibraries w;
     debouncedFetchXblocks := d;
     dom := dom w; issued := issued w; pending := pending w;
     triggered := triggered w |}.

Definition set_dom (d : DOM) (w : World) : World :=
  {| mounted := mounted w; props := props w; state := state w;
     debouncedFetchLibraries := debouncedFetchLibraries w;
     debouncedFetchXblocks := debouncedFetchXblocks w;
     dom := d; issued := issued w; pending := pending w;
     triggered := triggered w |}.

Definition set_requests (i : list Query) (p : list nat) (w : World) : World :=
  {| mounted := mounted w; props := props w; state := state w;
     debouncedFetchLibraries := debouncedFetchLibraries w;
     debouncedFetchXblocks := debouncedFetchXblocks w;
     dom := dom w; issued := i; pending := p;
     triggered := triggered w |}.

Definition set_triggered (t : list SaveParams) (w : World) : World :=
  {| mounted := mounted w; props := props w; state := state w;
     debouncedFetchLibraries := debouncedFetchLibraries w;
     debouncedFetchXblocks := debouncedFetchXblocks w;
     dom := dom w; issued := issued w; pending := pending w;
     triggered := t |}.

Definition set_mounted (b : bool) (w : World) : World :=
  {| mounted := b; props := props w; state := state w;
     debouncedFetchLibraries := debouncedFetchLibraries w;
     debouncedFetchXblocks := debouncedFetchXblocks w;
     dom := dom w; issued := issued w; pending := pending w;
     triggered := triggered w |}.

Definition with_libraries (v : list Library) (s : State) : State :=
  {| libraries := v; xblocks := xblocks s;
     searchedLibrary := searchedLibrary s; searchedXblock := searchedXblock s;
     selectedLibrary := selectedLibrary s; selectedXblocks := selectedXblocks s |}.

Definition with_xblocks (v : list Block) (s : State) : State :=
  {| libraries := libraries s; xblocks := v;
     searchedLibrary := searchedLibrary s; searchedXblock := searchedXblock s;
     selectedLibrary := selectedLibrary s; selectedXblocks := selectedXblocks s |}.

Definition with_searchedLibrary (v : string) (s : State) : State :=
  {| libraries := libraries s; xblocks := xblocks s;
     searchedLibrary := v; searchedXblock := searchedXblock s;
     selectedLibrary := selectedLibrary s; selectedXblocks := selectedXblocks s |}.

Definition with_searchedXblock (v : string) (s : State) : State :=
  {| libraries := libraries s; xblocks := xblocks s;
     searchedLibrary := searchedLibrary s; searchedXblock := v;
     selectedLibrary := selectedLibrary s; selectedXblocks := selectedXblocks s |}.

Definition with_selectedLibrary (v : option string) (s : State) : State :=
  {| libraries := libraries s; xblocks := xblocks s;
     searchedLibrary := searchedLibrary s; searchedXblock := searchedXblock s;
     selectedLibrary := v; selectedXblocks := selectedXblocks s |}.

Definition with_selectedXblocks (v : JSSet.t) (s : State) : State :=
  {| libraries := libraries s; xblocks := xblocks s;
     searchedLibrary := searchedLibrary s; searchedXblock := searchedXblock s;
     selectedLibrary := selectedLibrary s; selectedXblocks := v |}.

(** ** Primitives of the environment *)

(** [this.setState(update)]: merges the update into [this.state]; React
    ignores the call on a component that has been unmounted. *)
Definition setState (update : State -> State) (w : World) : World :=
  if mounted w then set_state (update (state w)) w else w.

(** [fetch(url, ...)]: the request is issued at once; its promise settles in
    a later turn. *)
Definition fetch (q : Query) (w : World) : World :=
  set_requests (issued w ++ [q]) (pending w ++ [List.length (issued w)]) w.

(** A call of a debounced function (re)starts its timer. *)
Definition invoke (d : Debounced) : Debounced :=
  {| captured := captured d; timer := Some wait |}.

(** [_.debounce(callback, 300)] as created inside a handler called with
    [event]. *)
Definition debounce (event : ChangeEvent) : Debounced :=
  {| captured := event; timer := None |}.

(** One unit of time on a debounced function: the new value, and whether its
    callback is due. *)
Definition countdown (d : Debounced) : Debounced * bool :=
  match timer d with
  | None => (d, false)
  | Some n =>
      if n <=? 1
      then ({| captured := captured d; timer := None |}, true)
      else ({| captured := captured d; timer := Some (n - 1) |}, false)
  end.

(** ** The component, method by method *)

(** [fetchLibraries(text_search='')]; the continuation that stores the
    response is [on_libraries] below. *)
Definition fetchLibraries (text_search : option string) (w : World) : World :=
  fetch (ListLibraries (match text_search with Some t => t | None => "" end)) w.

(** [fetchXblocks(library, text_search='')] *)
Definition fetchXblocks (library : option string) (text_search : option string)
  (w : World) : World :=
  fetch (ListBlocks library (match text_search with Some t => t | None => "" end)) w.

(** [constructor(props)] *)
Definition constructor (p : Props.t) : World :=
  fetchLibraries None
    {| mounted := true;
       props := p;
       state := {| libraries := [];
                   xblocks := [];
                   searchedLibrary := "";
                   searchedXblock := "";
                   selectedLibrary := None;
                   selectedXblocks := JSSet.of_iterable (Props.selectedXblocks p) |};
       debouncedFetchLibraries := None;
       debouncedFetchXblocks := None;
       dom := {| librarySearchValue := ""; xblockSearchValue := "" |};
       issued := [];
       pending := [];
       triggered := [] |}.

(** The arrow function given to [_.debounce] in [onLibraryInputChange].
    [event] is the event of the call that created the debounced function;
    its target is the input itself, and the value is read when the callback
    runs. *)
Definition debouncedFetchLibraries_callback (event : ChangeEvent) (w : World) : World :=
  fetchLibraries (Some (value (dom w) (target event))) w.

(** The arrow function given to [_.debounce] in [onXBlockInputChange]. *)
Definition debouncedFetchXblocks_callback (event : ChangeEvent) (w : World) : World :=
  fetchXblocks (selectedLibrary (state w)) (Some (value (dom w) (target event))) w.

Definition onLibraryInputChange (event : ChangeEvent) (w : World) : World :=
  let w := setState (with_searchedLibrary (value (dom w) (target event))) w in
  let w := match debouncedFetchLibraries w with
           | None => set_debouncedFetchLibraries (Some (debounce event)) w
           | Some _ => w
           end in
  set_debouncedFetchLibraries (option_map invoke (debouncedFetchLibraries w)) w.

Definition onXBlockInputChange (event : ChangeEvent) (w : World) : World :=
  let w := setState (with_searchedXblock (value (dom w) (target event))) w in
  let w := match debouncedFetchXblocks w with
           | None => set_debouncedFetchXblocks (Some (debounce event)) w
           | Some _ => w
           end in
  set_debouncedFetchXblocks (option_map invoke (debouncedFetchXblocks w)) w.

(** [onLibrarySelected(event)], with [event.target.value] as [v]. *)
Definition onLibrarySelected (v : string) (w : World) : World :=
  let w := setState (with_selectedLibrary (Some v)) w in
  fetchXblocks (Some v) None w.

(** [onXblockSelected(event)], with [event.target.checked] and
    [event.target.value]. *)
Definition onXblockSelected (checked : bool) (v : string) (w : World) : World :=
  let state' := JSSet.of_iterable (JSSet.to_array (selectedXblocks (state w))) in
  let state' := if checked then JSSet.add state' v else JSSet.delete state' v in
  setState (with_selectedXblocks state') w.

Definition onSaveClick (w : World) : World :=
  set_triggered
    (triggered w ++
       [{| save_url := Props.saveUrl (props w);
           source_block_ids := JSSet.to_array (selectedXblocks (state w)) |}])
    w.

(** [onDeleteClick(event)], with [event.target.dataset.value] as [v]. *)
Definition onDeleteClick (v : string) (w : World) : World :=
  let state' := JSSet.of_iterable (JSSet.to_array (selectedXblocks (state w))) in
  let state' := JSSet.delete state' v in
  setState (with_selectedXblocks state') w.

(** ** The event loop *)

(** One unit of time for each of the two debounced functions. *)
Definition tick_libraries (w : World) : World :=
  match debouncedFetchLibraries w with
  | None => w
  | Some d =>
      let '(d', due) := countdown d in
      let w := set_debouncedFetchLibraries (Some d') w in
      if due then debouncedFetchLibraries_callback (captured d') w else w
  end.

Definition tick_xblocks (w : World) : World :=
  match debouncedFetchXblocks w with
  | None => w
  | Some d =>
      let '(d', due) := countdown d in
      let w := set_debouncedFetchXblocks (Some d') w in
      if due then debouncedFetchXblocks_callback (captured d') w else w
  end.

(** When both callbacks are due in the same unit the one of the library
    field runs first; neither reads what the other writes. *)
Definition tick (w : World) : World := tick_xblocks (tick_libraries w).

Definition elapse (d : nat) (w : World) : World := Nat.iter d tick w.
Arguments elapse : simpl never.

Definition is_pending (rid : nat) (w : World) : bool :=
  existsb (Nat.eqb rid) (pending w).

Definition settle (rid : nat) (w : World) : World :=
  set_requests (issued w) (filter (fun i => negb (i =? rid)) (pending w)) w.

(** The last [.then] of [fetchLibraries]. *)
Definition on_libraries (rid : nat) (response : list Library) (w : World) : World :=
  if is_pending rid w then
    match nth_error (issued w) rid with
    | Some (ListLibraries _) => setState (with_libraries response) (settle rid w)
    | _ => w
    end
  else w.

(** The last [.then] of [fetchXblocks]. *)
Definition on_xblocks (rid : nat) (response : list Block) (w : World) : World :=
  if is_pending rid w then
    match nth_error (issued w) rid with
    | Some (ListBlocks _ _) => setState (with_xblocks response) (settle rid w)
    | _ => w
    end
  else w.

(** What can happen to the component.  A text change first gives the input
    its new value, then calls the handler with an event whose target is that
    input.  A response names the request it answers by its position in
    [issued] and carries the array the catalog service answers with (libraries
    for a library query, blocks for a block query); a rejected [fetch] has no
    handler.  [Unmount] is React taking the component down: the class has no
    [componentWillUnmount], so nothing but [mounted] changes. *)
Inductive Event :=
| LibraryInputChange (text : string)
| XBlockInputChange (text : string)
| LibrarySelected (v : string)
| XblockSelected (checked : bool) (v : string)
| DeleteClick (v : string)
| SaveClick
| Elapse (d : nat)
| LibrariesResponse (rid : nat) (response : list Library)
| BlocksResponse (rid : nat) (response : list Block)
| FetchFailed (rid : nat)
| Unmount.

Definition step (e : Event) (w : World) : World :=
  match e with
  | LibraryInputChange text =>
      onLibraryInputChange {| target := LibrarySearchInput |}
        (set_dom (set_value LibrarySearchInput text (dom w)) w)
  | XBlockInputChange text =>
      onXBlockInputChange {| target := XBlockSearchInput |}
        (set_dom (set_value XBlockSearchInput text (dom w)) w)
  | LibrarySelected v => onLibrarySelected v w
  | XblockSelected checked v => onXblockSelected checked v w
  | DeleteClick v => onDeleteClick v w
  | SaveClick => onSaveClick w
  | Elapse d => elapse d w
  | LibrariesResponse rid response => on_libraries rid response w
  | BlocksResponse rid response => on_xblocks rid response w
  | FetchFailed rid => if is_pending rid w then settle rid w else w
  | Unmount => set_mounted false w
  end.

Definition run (evs : list Event) (w : World) : World :=
  fold_left (fun w e => step e w) evs w.

End Picker.

(** ** The save handler of the author view *)
Module SaveBridge.

(** The body of an HTTP response is read code unit by code unit, so the
    strings of this module are sequences of UTF-16 code units. *)
Definition jsstring := list N.

Definition js (s : string) : jsstring := map N_of_ascii (list_ascii_of_string s).

(** ECMAScript values as far as [JSON.parse] produces them, and [undefined].
    A number keeps its lexeme; an object keeps its members as written. *)
Inductive JSValue :=
| JUndefined
| JNull
| JBool (b : bool)
| JNumber (lexeme : jsstring)
| JString (s : jsstring)
| JArray (elems : list JSValue)
| JObject (members : list (jsstring * JSValue)).

(** The outcome of evaluating an expression that may throw. *)
Inductive Completion (A : Type) :=
| Normal (a : A)
| Throw.
Arguments Normal {A} a.
Arguments Throw {A}.

Definition bind {A B} (c : Completion A) (k : A -> Completion B) : Completion B :=
  match c with Normal a => k a | Throw => Throw end.

Notation "x <- c ;; k" := (bind c (fun x => k))
  (at level 61, c at next level, right associativity).

Definition jsstring_eqb (a b : jsstring) : bool :=
  if list_eq_dec N.eq_dec a b then true else false.

(** *** [JSON.parse] *)

Definition is_ws (c : N) : bool :=
  ((c =? 32) || (c =? 9) || (c =? 10) || (c =? 13))%N.

Fixpoint skip_ws (l : jsstring) : jsstring :=
  match l with
  | c :: rest => if is_ws c then skip_ws rest else l
  | [] => []
  end.

Definition is_digit (c : N) : bool := ((48 <=? c) && (c <=? 57))%N.

Definition hex (c : N) : option N :=
  if is_digit c then Some (c - 48)%N
  else if ((65 <=? c) && (c <=? 70))%N then Some (c - 55)%N
  else if ((97 <=? c) && (c <=? 102))%N then Some (c - 87)%N
  else None.

(** The character written after a backslash, other than [u]. *)
Definition unescape (c : N) : option N :=
  match c with
  | 34%N => Some 34%N     (* quotation mark *)
  | 92%N => Some 92%N     (* backslash *)
  | 47%N => Some 47%N     (* slash *)
  | 98%N => Some 8%N      (* b *)
  | 102%N => Some 12%N    (* f *)
  | 110%N => Some 10%N    (* n *)
  | 114%N => Some 13%N    (* r *)
  | 116%N => Some 9%N     (* t *)
  | _ => None
  end.

Definition cons_char (c : N) (r : option (jsstring * jsstring))
  : option (jsstring * jsstring) :=
  match r with Some (s, rest) => Some (c :: s, rest) | None => None end.

(** The characters of a string literal after its opening quotation mark, and
    what follows the closing one.  Code units below 32 must be escaped; an
    escape [\uXXXX] gives the code unit with that number. *)
Fixpoint parse_chars (l : jsstring) : option (jsstring * jsstring) :=
  match l with
  | [] => None
  | c :: rest =>
      if (c =? 34)%N then Some ([], rest)
      else if (c =? 92)%N then
        match rest with
        | [] => None
        | e :: rest1 =>
            if (e =? 117)%N then
              match rest1 with
              | h3 :: h2 :: h1 :: h0 :: rest2 =>
                  match hex h3, hex h2, hex h1, hex h0 with
                  | Some a, Some b, Some c, Some d =>
                      cons_char (4096 * a + 256 * b + 16 * c + d)%N (parse_chars rest2)
                  | _, _, _, _ => None
                  end
              | _ => None
              end
            else
              match unescape e with
              | Some u => cons_char u (parse_chars rest1)
              | None => None
              end
        end
      else if (c <? 32)%N then None
      else cons_char c (parse_chars rest)
  end.

Fixpoint span_digits (l : jsstring) : jsstring * jsstring :=
  match l with
  | c :: rest =>
      if is_digit c then let '(ds, r) := span_digits rest in (c :: ds, r)
      else ([], l)
  | [] => ([], [])
  end.

(** [0], or a digit from 1 to 9 followed by digits. *)
Definition parse_int (l : jsstring) : option (jsstring * jsstring) :=
  match l with
  | c :: rest =>
      if (c =? 48)%N then Some ([c], rest)
      else if is_digit c then let '(ds, r) := span_digits rest in Some (c :: ds, r)
      else None
  | [] => None
  end.

(** A point followed by at least one digit, or nothing. *)
Definition parse_frac (l : jsstring) : option (jsstring * jsstring) :=
  match l with
  | c :: rest =>
      if (c =? 46)%N then
        match span_digits rest with
        | ([], _) => None
        | (ds, r) => Some (c :: ds, r)
        end
      else Some ([], l)
  | [] => Some ([], l)
  end.

Definition parse_sign (l : jsstring) : jsstring * jsstring :=
  match l with
  | c :: rest => if ((c =? 43) || (c =? 45))%N then ([c], rest) else ([], l)
  | [] => ([], l)
  end.

(** [e] or [E], an optional sign and at least one digit, or nothing. *)
Definition parse_exp (l : jsstring) : option (jsstring * jsstring) :=
  match l with
  | e :: rest =>
      if ((e =? 101) || (e =? 69))%N then
        let '(sign, r1) := parse_sign rest in
        match span_digits r1 with
        | ([], _) => None
        | (ds, r2) => Some (e :: sign ++ ds, r2)
        end
      else Some ([], l)
  | [] => Some ([], l)
  end.

Definition parse_minus (l : jsstring) : jsstring * jsstring :=
  match l with
  | c :: rest => if (c =? 45)%N then ([c], rest) else ([], l)
  | [] => ([], l)
  end.

(** A number: its lexeme and what follows it. *)
Definition parse_number (l : jsstring) : option (jsstring * jsstring) :=
  let '(minus, r0) := parse_minus l in
  match parse_int r0 with
  | Some (int, r1) =>
      match parse_frac r1 with
      | Some (frac, r2) =>
          match parse_exp r2 with
          | Some (exp, r3) => Some (minus ++ int ++ frac ++ exp, r3)
          | None => None
          end
      | None => None
      end
  | None => None
  end.

(** What is left of [l] after [prefix], when [l] starts with it. *)
Fixpoint strip_prefix (prefix l : jsstring) : option jsstring :=
  match prefix, l with
  | [], _ => Some l
  | p :: prefix', c :: l' => if (p =? c)%N then strip_prefix prefix' l' else None
  | _ :: _, [] => None
  end.

(** The outcome of a parser that recurses on nested values with fuel. *)
Inductive Parse (A : Type) :=
| Parsed (a : A) (rest : jsstring)
| Invalid
| OutOfFuel.
Arguments Parsed {A} a rest.
Arguments Invalid {A}.
Arguments OutOfFuel {A}.

(** A value, the elements of an array up to its closing bracket, the members
    of an object up to its closing brace.  The fuel bounds the depth of the
    calls; [JSON_parse] gives two units for each code unit of the text, which
    is enough ([JSON_parse_fuel] below). *)
Fixpoint parse_value (fuel : nat) (l : jsstring) : Parse JSValue :=
  match fuel with
  | O => OutOfFuel
  | S fuel =>
      match l with
      | [] => Invalid
      | c :: rest =>
          if (c =? 34)%N then
            match parse_chars rest with
            | Some (s, r) => Parsed (JString s) r
            | None => Invalid
            end
          else if (c =? 91)%N then
            match strip_prefix [93%N] (skip_ws rest) with
            | Some r => Parsed (JArray []) r
            | None =>
                match parse_elements fuel (skip_ws rest) with
                | Parsed vs r => Parsed (JArray vs) r
                | Invalid => Invalid
                | OutOfFuel => OutOfFuel
                end
            end
          else if (c =? 123)%N then
            match strip_prefix [125%N] (skip_ws rest) with
            | Some r => Parsed (JObject []) r
            | None =>
                match parse_members fuel (skip_ws rest) with
                | Parsed ms r => Parsed (JObject ms) r
                | Invalid => Invalid
                | OutOfFuel => OutOfFuel
                end
            end
          else
            match strip_prefix (js "true") l with
            | Some r => Parsed (JBool true) r
            | None =>
            match strip_prefix (js "false") l with
            | Some r => Parsed (JBool false) r
            | None =>
            match strip_prefix (js "null") l with
            | Some r => Parsed JNull r
            | None =>
            match parse_number l with
            | Some (lexeme, r) => Parsed (JNumber lexeme) r
            | None => Invalid
            end end end end
      end
  end
with parse_elements (fuel : nat) (l : jsstring) : Parse (list JSValue) :=
  match fuel with
  | O => OutOfFuel
  | S fuel =>
      match parse_value fuel (skip_ws l) with
      | Parsed v r =>
          match skip_ws r with
          | c :: r' =>
              if (c =? 44)%N then
                match parse_elements fuel r' with
                | Parsed vs r'' => Parsed (v :: vs) r''
                | Invalid => Invalid
                | OutOfFuel => OutOfFuel
                end
              else if (c =? 93)%N then Parsed [v] r'
              else Invalid
          | [] => Invalid
          end
      | Invalid => Invalid
      | OutOfFuel => OutOfFuel
      end
  end
with parse_members (fuel : nat) (l : jsstring) : Parse (list (jsstring * JSValue)) :=
  match fuel with
  | O => OutOfFuel
  | S fuel =>
      match strip_prefix [34%N] (skip_ws l) with
      | Some r0 =>
          match parse_chars r0 with
          | Some (key, r1) =>
              match strip_prefix [58%N] (skip_ws r1) with
              | Some r2 =>
                  match parse_value fuel (skip_ws r2) with
                  | Parsed v r3 =>
                      match skip_ws r3 with
                      | c :: r4 =>
                          if (c =? 44)%N then
                            match parse_members fuel r4 with
                            | Parsed ms r5 => Parsed ((key, v) :: ms) r5
                            | Invalid => Invalid
                            | OutOfFuel => OutOfFuel
                            end
                          else if (c =? 125)%N then Parsed [(key, v)] r4
                          else Invalid
                      | [] => Invalid
                      end
                  | Invalid => Invalid
                  | OutOfFuel => OutOfFuel
                  end
              | None => Invalid
              end
          | None => Invalid
          end
      | None => Invalid
      end
  end.

(** [JSON.parse(text)]; [Throw] is its SyntaxError. *)
Definition JSON_parse (text : jsstring) : Completion JSValue :=
  match parse_value (2 * List.length text + 2) (skip_ws text) with
  | Parsed v r =>
      match skip_ws r with
      | [] => Normal v
      | _ => Throw
      end
  | Invalid | OutOfFuel => Throw
  end.
Arguments JSON_parse : simpl never.

(** *** Operations of the language and of jQuery that the handler uses *)

(** The value of an own property of a parsed object: of the members with that
    key, the last one written. *)
Fixpoint lookup (key : jsstring) (ms : list (jsstring * JSValue)) : option JSValue :=
  match ms with
  | [] => None
  | (k, v) :: rest =>
      match lookup key rest with
      | Some v' => Some v'
      | None => if jsstring_eqb k key then Some v else None
      end
  end.

(** [v.name], for the names the handler reads ([error], [messages], [text]),
    which no prototype defines; reading a property of [null] or [undefined]
    throws a TypeError. *)
Definition get (v : JSValue) (name : jsstring) : Completion JSValue :=
  match v with
  | JUndefined | JNull => Throw
  | JObject ms =>
      Normal (match lookup name ms with Some x => x | None => JUndefined end)
  | _ => Normal JUndefined
  end.

(** [typeof v === 'object'] *)
Definition typeof_object (v : JSValue) : bool :=
  match v with
  | JNull | JArray _ | JObject _ => true
  | _ => false
  end.

(** [Array.prototype.concat] applied to the elements: arrays are spread. *)
Definition flatten (l : list JSValue) : list JSValue :=
  flat_map (fun v => match v with JArray a => a | _ => [v] end) l.

Section Handler.

(** The translation function of the page. *)
Variable gettext : jsstring -> jsstring.

(** Numbers are IEEE doubles: whether the number a lexeme denotes is neither
    zero nor NaN, and the string the language prints it as. *)
Variable number_truthy : jsstring -> bool.
Variable number_toString : jsstring -> jsstring.

(** The elements [jQuery.map] visits in an object that is not an array (its
    enumerable properties, or its indices when it has a [length]). *)
Variable object_elems : list (jsstring * JSValue) -> list JSValue.

(** ToBoolean *)
Definition ToBoolean (v : JSValue) : bool :=
  match v with
  | JUndefined | JNull => false
  | JBool b => b
  | JNumber lexeme => number_truthy lexeme
  | JString s => match s with [] => false | _ => true end
  | JArray _ | JObject _ => true
  end.

(** ToString.  An array prints as its elements joined with a comma; a parsed
    object prints as [[object Object]] unless it has a member [toString],
    which is not callable and makes the conversion throw. *)
Fixpoint ToString (v : JSValue) : Completion jsstring :=
  match v with
  | JUndefined => Normal (js "undefined")
  | JNull => Normal (js "null")
  | JBool b => Normal (js (if b then "true" else "false"))
  | JNumber lexeme => Normal (number_toString lexeme)
  | JString s => Normal s
  | JArray elems =>
      (fix join_comma (l : list JSValue) : Completion jsstring :=
         match l with
         | [] => Normal []
         | x :: rest =>
             s <- match x with
                  | JUndefined | JNull => Normal []
                  | _ => ToString x
                  end;;
             match rest with
             | [] => Normal s
             | _ => r <- join_comma rest;; Normal (s ++ js "," ++ r)
             end
         end) elems
  | JObject ms =>
      match lookup (js "toString") ms with
      | Some _ => Throw
      | None => Normal (js "[object Object]")
      end
  end.

(** [Array.prototype.join] *)
Fixpoint join (separator : jsstring) (l : list JSValue) : Completion jsstring :=
  match l with
  | [] => Normal []
  | x :: rest =>
      s <- match x with
           | JUndefined | JNull => Normal []
           | _ => ToString x
           end;;
      match rest with
      | [] => Normal s
      | _ => r <- join separator rest;; Normal (s ++ separator ++ r)
      end
  end.

(** The loop of [jQuery.map]: results that are [null] or [undefined] are
    dropped. *)
Fixpoint map_elems (callback : JSValue -> Completion JSValue) (l : list JSValue)
  : Completion (list JSValue) :=
  match l with
  | [] => Normal []
  | e :: rest =>
      v <- callback e;;
      vs <- map_elems callback rest;;
      Normal (match v with JUndefined | JNull => vs | _ => v :: vs end)
  end.

(** [$.map(elems, callback)].  The test for an array-like argument evaluates
    ["length" in elems] when [elems] is truthy, which throws on a primitive
    value. *)
Definition jQuery_map (elems : JSValue) (callback : JSValue -> Completion JSValue)
  : Completion (list JSValue) :=
  match elems with
  | JArray l => vs <- map_elems callback l;; Normal (flatten vs)
  | JObject ms => vs <- map_elems callback (object_elems ms);; Normal (flatten vs)
  | _ => if ToBoolean elems then Throw else Normal []
  end.

(** *** The handlers installed by [LibrarySourceBlockAuthorView] *)

(** The body of the [try] block of the [fail] handler: the value of
    [message] when the block completes. *)
Definition try_block (responseText : jsstring) : Completion JSValue :=
  parsed <- JSON_parse responseText;;
  message <- get parsed (js "error");;
  if typeof_object message then
    messages <- get message (js "messages");;
    if ToBoolean messages then
      texts <- jQuery_map messages (fun msg => get msg (js "text"));;
      joined <- join (js ", ") texts;;
      Normal (JString joined)
    else Normal message
  else Normal message.

Definition fallback_message : jsstring :=
  gettext (js "This may be happening because of an error with our server or your internet connection. Try refreshing the page or making sure you are online.").

(** The [message] the [fail] handler hands to [runtime.notify('error', ...)];
    [responseText] is [None] when [jqXHR.responseText] is [undefined]. *)
Definition fail_message (responseText : option jsstring) : JSValue :=
  let message := JString fallback_message in
  match responseText with
  | Some ((_ :: _) as text) =>
      match try_block text with
      | Normal message => message
      | Throw => JString (firstn 300 text)
      end
  | _ => message
  end.

Record Notification := { notify_title : jsstring; notify_message : JSValue }.

(** The [fail] handler: its call of [runtime.notify('error', ...)]. *)
Definition fail (responseText : option jsstring) : Notification :=
  {| notify_title := gettext (js "Unable to update settings");
     notify_message := fail_message responseText |}.

End Handler.

(** The request the 'save' handler makes with [$.ajax]; [data] is shown
    before [JSON.stringify]. *)
Record SaveData := { values_source_block_ids : list string; defaults : list string }.

Record Ajax := {
  ajax_type : string;
  ajax_url : string;
  ajax_data : SaveData;
  ajax_global : bool
}.

Definition on_save (params : Picker.SaveParams) : Ajax :=
  {| ajax_type := "POST";
     ajax_url := Picker.save_url params;
     ajax_data := {| values_source_block_ids := Picker.source_block_ids params;
                     defaults := ["display_name"] |};
     ajax_global := false |}.

(** Strings put one after the other with a separator between them. *)
Fixpoint separated_by (separator : jsstring) (l : list jsstring) : jsstring :=
  match l with
  | [] => []
  | x :: rest =>
      match rest with
      | [] => x
      | _ => x ++ separator ++ separated_by separator rest
      end
  end.

(** *** [JSON.stringify] of the data sent *)

Definition hex_digit (n : N) : N := if (n <? 10)%N then (n + 48)%N else (n + 87)%N.

(** [\uXXXX] with lower case digits. *)
Definition unicode_escape (c : N) : jsstring :=
  [92; 117; hex_digit (c / 4096); hex_digit ((c / 256) mod 16);
   hex_digit ((c / 16) mod 16); hex_digit (c mod 16)]%N.

(** The letter of the two-character escape of a code unit that has one. *)
Definition short_escape (c : N) : option N :=
  if (c =? 8)%N then Some 98%N
  else if (c =? 9)%N then Some 116%N
  else if (c =? 10)%N then Some 110%N
  else if (c =? 12)%N then Some 102%N
  else if (c =? 13)%N then Some 114%N
  else if (c =? 34)%N then Some 34%N
  else if (c =? 92)%N then Some 92%N
  else None.

Definition is_leading_surrogate (c : N) : bool := ((55296 <=? c) && (c <=? 56319))%N.
Definition is_trailing_surrogate (c : N) : bool := ((56320 <=? c) && (c <=? 57343))%N.

(** The characters QuoteJSONString puts between the quotation marks: the
    short escapes, [\u] escapes for the other code units below 32 and for
    surrogates that are not part of a pair, everything else as it is. *)
Fixpoint quote_chars (s : jsstring) : jsstring :=
  match s with
  | [] => []
  | c :: rest =>
      match short_escape c with
      | Some e => 92%N :: e :: quote_chars rest
      | None =>
          if (c <? 32)%N then unicode_escape c ++ quote_chars rest
          else if is_leading_surrogate c then
            match rest with
            | c2 :: rest2 =>
                if is_trailing_surrogate c2 then c :: c2 :: quote_chars rest2
                else unicode_escape c ++ quote_chars rest
            | [] => unicode_escape c
            end
          else if is_trailing_surrogate c then unicode_escape c ++ quote_chars rest
          else c :: quote_chars rest
      end
  end.

Definition QuoteJSONString (s : jsstring) : jsstring :=
  34%N :: quote_chars s ++ [34%N].

Section Stringify.

(** What [JSON.stringify] prints for the number a lexeme denotes. *)
Variable number_json : jsstring -> jsstring.

(** [JSON.stringify(v)] without indentation, [None] for [undefined]; for
    objects whose keys are distinct and are not array indices, so that their
    properties are enumerated in the order listed.  In an array [undefined]
    prints as [null]; in an object a member that is [undefined] is left out. *)
Fixpoint JSON_stringify (v : JSValue) : option jsstring :=
  match v with
  | JUndefined => None
  | JNull => Some (js "null")
  | JBool b => Some (js (if b then "true" else "false"))
  | JNumber lexeme => Some (number_json lexeme)
  | JString s => Some (QuoteJSONString s)
  | JArray elems =>
      Some (js "["
              ++ separated_by (js ",")
                   (map (fun e => match JSON_stringify e with
                                  | Some t => t
                                  | None => js "null"
                                  end) elems)
              ++ js "]")
  | JObject members =>
      Some (js "{"
              ++ separated_by (js ",")
                   (flat_map (fun kv => match JSON_stringify (snd kv) with
                                        | Some t => [QuoteJSONString (fst kv) ++ js ":" ++ t]
                                        | None => []
                                        end) members)
              ++ js "}")
  end.

End Stringify.

(** The object [data] of the 'save' handler. *)
Definition data_value (d : SaveData) : JSValue :=
  JObject
    [(js "values",
      JObject [(js "source_block_ids",
                JArray (map (fun id => JString (js id)) (values_source_block_ids d)))]);
     (js "defaults", JArray (map (fun name => JString (js name)) (defaults d)))].

(** A value made of [null], booleans, strings, arrays and objects, whose
    code units are all below 65536. *)
Definition units (s : jsstring) : Prop := Forall (fun c => (c < 65536)%N) s.

Fixpoint plain (v : JSValue) : Prop :=
  match v with
  | JUndefined | JNumber _ => False
  | JNull | JBool _ => True
  | JString s => units s
  | JArray elems => (fix all (l : list JSValue) : Prop :=
                       match l with
                       | [] => True
                       | x :: rest => plain x /\ all rest
                       end) elems
  | JObject members => (fix all (l : list (jsstring * JSValue)) : Prop :=
                          match l with
                          | [] => True
                          | kv :: rest => (units (fst kv) /\ plain (snd kv)) /\ all rest
                          end) members
  end.

(** A bound on the depth of the calls that parse the text of a value. *)
Fixpoint size (v : JSValue) : nat :=
  match v with
  | JArray elems => S (fold_right (fun x n => S (size x + n)) 0 elems)
  | JObject members => S (fold_right (fun kv n => S (size (snd kv) + n)) 0 members)
  | _ => 1
  end.

(** *** Vocabulary of the properties *)

(** The sizes of the elements of an array and of the members of an object,
    as [size] adds them up. *)
Definition elems_size (vs : list JSValue) : nat :=
  fold_right (fun x n => S (size x + n)) 0 vs.

Definition members_size (ms : list (jsstring * JSValue)) : nat :=
  fold_right (fun kv n => S (size (snd kv) + n)) 0 ms.

(** A text that starts with a code unit that is neither white space nor a
    closing bracket, as the text of a value does. *)
Definition starts_value (l : jsstring) : Prop :=
  match l with
  | c :: _ => is_ws c = false /\ (93 =? c)%N = false /\ (125 =? c)%N = false
  | [] => False
  end.

(** The text of one entry of [messages]: a string, or nothing when the entry
    has no [text] or a [null] one. *)
Definition text_of (msg : JSValue) (t : option jsstring) : Prop :=
  match t with
  | Some s => get msg (js "text") = Normal (JString s)
  | None => get msg (js "text") = Normal JUndefined \/
            get msg (js "text") = Normal JNull
  end.

Definition present (texts : list (option jsstring)) : list jsstring :=
  flat_map (fun t => match t with Some s => [s] | None => [] end) texts.

(** A string literal of JSON for a text that needs no escape. *)
Definition quoted (s : string) : jsstring := 34%N :: js s ++ [34%N].



(** A body that is not JSON and is longer than 300 code units. *)
Definition body_html : jsstring :=
  js "<html><body>" ++ List.concat (repeat (js "Internal Server Error. ") 20)
    ++ js "</body></html>".

End SaveBridge.

(** ** Vocabulary of the properties

    What the events ask of the selection, the queries among the requests
    issued, bursts of text changes, and the states of a debounced function
    that the proofs follow. *)
Module Expected.
Import Picker.

(** The identifier a selection event concerns, and whether it adds it. *)
Definition selection_op (e : Event) : option (string * bool) :=
  match e with
  | XblockSelected checked v => Some (v, checked)
  | DeleteClick v => Some (v, false)
  | _ => None
  end.

Definition concerns (x : string) (e : Event) : option bool :=
  match selection_op e with
  | Some (v, b) => if String.eqb v x then Some b else None
  | None => None
  end.

(** The last event of [evs] that concerns [x]: [Some true] for an addition,
    [Some false] for a removal. *)
Fixpoint last_concerning (x : string) (evs : list Event) : option bool :=
  match evs with
  | [] => None
  | e :: rest =>
      match last_concerning x rest with
      | Some b => Some b
      | None => concerns x e
      end
  end.

Definition removes (x : string) (e : Event) : bool :=
  match concerns x e with Some false => true | _ => false end.

Definition never_removed (x : string) (evs : list Event) : Prop :=
  forallb (fun e => negb (removes x e)) evs = true.

Definition is_Unmount (e : Event) : bool :=
  match e with Unmount => true | _ => false end.

Definition is_LibrarySelected (e : Event) : bool :=
  match e with LibrarySelected _ => true | _ => false end.

Definition is_XBlockInputChange (e : Event) : bool :=
  match e with XBlockInputChange _ => true | _ => false end.

(** The text filters of the library queries, and the arguments of the block
    queries, among the requests issued. *)
Definition library_queries (l : list Query) : list string :=
  flat_map (fun q => match q with ListLibraries t => [t] | ListBlocks _ _ => [] end) l.

Definition block_queries (l : list Query) : list (option string * string) :=
  flat_map (fun q => match q with ListLibraries _ => [] | ListBlocks lib t => [(lib, t)] end) l.

(** A burst of text changes on one field: a first text, then further texts,
    each with the time elapsed since the change before it. *)
Definition burst (change : string -> Event) (t0 : string) (rest : list (nat * string))
  : list Event :=
  change t0 :: flat_map (fun dt => [Elapse (fst dt); change (snd dt)]) rest.

Definition last_text (t0 : string) (rest : list (nat * string)) : string :=
  last (map snd rest) t0.

(** The library search field has a call waiting: [n] units are left, the
    field shows [t], and the library queries so far are [lq]. *)
Definition libraries_waiting (n : nat) (w : World) (t : string) (lq : list string) : Prop :=
  exists ev,
    debouncedFetchLibraries w = Some {| captured := ev; timer := Some n |} /\
    target ev = LibrarySearchInput /\
    librarySearchValue (dom w) = t /\
    library_queries (issued w) = lq.

(** The debounced function of the library field, if created, was created by
    an event on the library search input. *)
Definition libraries_bound (w : World) : Prop :=
  forall d, debouncedFetchLibraries w = Some d -> target (captured d) = LibrarySearchInput.

(** The same for the block search field, with the block queries so far. *)
Definition xblocks_waiting (n : nat) (w : World) (t : string)
  (bq : list (option string * string)) : Prop :=
  exists ev,
    debouncedFetchXblocks w = Some {| captured := ev; timer := Some n |} /\
    target ev = XBlockSearchInput /\
    xblockSearchValue (dom w) = t /\
    block_queries (issued w) = bq.

Definition xblocks_bound (w : World) : Prop :=
  forall d, debouncedFetchXblocks w = Some d -> target (captured d) = XBlockSearchInput.

End Expected.

(** ** What [render] returns *)
Module View.
Import Picker.

(** The methods bound in the constructor, as values of props. *)
Inductive Handler :=
| this_onLibraryInputChange
| this_onLibrarySelected
| this_onXBlockInputChange
| this_onXblockSelected
| this_onSaveClick
| this_onDeleteClick.

Inductive PropValue :=
| Str (s : string)
| Undefined
| Bool (b : bool)
| Style (css : list (string * string))
| Callback (h : Handler).

(** A React element with its key, its props as written and its children,
    or a text.  The elements an array child contributes are listed in place. *)
Inductive Node :=
| Element (tag : string) (key : option string)
    (props : list (string * PropValue)) (children : list Node)
| Text (s : string).

Definition column : PropValue :=
  Style [("display", "flex"); ("flexDirection", "column");
         ("border", "1px solid #ccc"); ("margin", "10px")].

(** The callback of [this.state.libraries.map]. *)
Definition render_library (lib : Library) : Node :=
  Element "div" (Some (lib_id lib)) []
    [Element "input" None
       [("id", Str ("sourced-library-" ++ lib_id lib)%string); ("type", Str "radio");
        ("value", Str (lib_id lib)); ("name", Str "library")] [];
     Element "label" None
       [("htmlFor", Str ("sourced-library-" ++ lib_id lib)%string)]
       [Text (title lib)]].

(** The callback of [this.state.xblocks.map]. *)
Definition render_block (selected : JSSet.t) (block : Block) : Node :=
  Element "div" (Some (block_id block)) []
    [Element "input" None
       [("id", Str ("sourced-block-" ++ block_id block)%string); ("type", Str "checkbox");
        ("value", Str (block_id block)); ("name", Str "block");
        ("checked", Bool (JSSet.has selected (block_id block)));
        ("readOnly", Bool true)] [];
     Element "label" None
       [("htmlFor", Str ("sourced-block-" ++ block_id block)%string)]
       [Text (display_name block); Text " ("; Text (block_id block); Text ")"]].

(** The callback of [Array.from(this.state.selectedXblocks).map]. *)
Definition render_selected (block : string) : Node :=
  Element "li" (Some block)
    [("style", Style [("display", "flex"); ("flexDirection", "row");
                      ("justifyContent", "space-between")])]
    [Element "label" None [] [Text block];
     Element "button" None
       [("data-value", Str block); ("onClick", Callback this_onDeleteClick)]
       [Text "x"]].

(** [render()] *)
Definition render (s : State) : Node :=
  Element "section" None []
    [Element "div" None
       [("style", Style [("display", "flex"); ("flexDirection", "row")])]
       [Element "div" None [("style", column)]
          [Element "input" None
             [("placeholder", Str "Search for libary");
              ("value", Str (searchedLibrary s));
              ("onChange", Callback this_onLibraryInputChange)] [];
           Element "div" None
             [("className", Str "list-group");
              ("style", Style [("padding", "5px")]);
              ("onChange", Callback this_onLibrarySelected);
              ("value", match selectedLibrary s with
                        | Some v => Str v
                        | None => Undefined
                        end)]
             (map render_library (libraries s))];
        Element "div" None [("style", column)]
          [Element "input" None
             [("placeholder", Str "Search for XBlocks");
              ("onChange", Callback this_onXBlockInputChange)] [];
           Element "div" None
             [("className", Str "list-group");
              ("style", Style [("padding", "5px")]);
              ("onChange", Callback this_onXblockSelected)]
             (map (render_block (selectedXblocks s)) (xblocks s))];
        Element "div" None [("style", column)]
          [Element "h4" None [] [Text " Selected blocks "];
           Element "ul" None []
             (map render_selected (JSSet.to_array (selectedXblocks s)))]];
     Element "button" None
       [("className", Str "btn-brand save-btn");
        ("onClick", Callback this_onSaveClick)]
       [Text "Save"]].

(** *** Looking into the tree *)

(** A node and the nodes below it, in document order. *)
Fixpoint nodes (n : Node) : list Node :=
  n :: match n with
       | Element _ _ _ children => flat_map nodes children
       | Text _ => []
       end.

Fixpoint prop (name : string) (props : list (string * PropValue)) : option PropValue :=
  match props with
  | [] => None
  | (k, v) :: rest => if String.eqb k name then Some v else prop name rest
  end.

(** The value and the checked state of a node that is a checkbox. *)
Definition checkbox_of (n : Node) : list (string * bool) :=
  match n with
  | Element "input" _ props _ =>
      match prop "type" props, prop "value" props, prop "checked" props with
      | Some (Str "checkbox"), Some (Str v), Some (Bool c) => [(v, c)]
      | _, _, _ => []
      end
  | _ => []
  end.

Definition checkboxes (n : Node) : list (string * bool) :=
  flat_map checkbox_of (nodes n).

(** The value of a node that is a radio button. *)
Definition radio_of (n : Node) : list string :=
  match n with
  | Element "input" _ props _ =>
      match prop "type" props, prop "value" props with
      | Some (Str "radio"), Some (Str v) => [v]
      | _, _ => []
      end
  | _ => []
  end.

Definition radios (n : Node) : list string := flat_map radio_of (nodes n).

(** The [data-value] of a node that is a button calling [onDeleteClick]. *)
Definition delete_button_of (n : Node) : list string :=
  match n with
  | Element "button" _ props _ =>
      match prop "onClick" props, prop "data-value" props with
      | Some (Callback this_onDeleteClick), Some (Str v) => [v]
      | _, _ => []
      end
  | _ => []
  end.

Definition delete_buttons (n : Node) : list string :=
  flat_map delete_button_of (nodes n).

(** The key of a node that is a list item. *)
Definition row_of (n : Node) : list (option string) :=
  match n with
  | Element "li" key _ _ => [key]
  | _ => []
  end.

Definition rows (n : Node) : list (option string) := flat_map row_of (nodes n).

(** The [value] prop of the inputs with a given placeholder. *)
Definition input_value_of (placeholder : string) (n : Node) : list (option PropValue) :=
  match n with
  | Element "input" _ props _ =>
      match prop "placeholder" props with
      | Some (Str ph) => if String.eqb ph placeholder then [prop "value" props] else []
      | _ => []
      end
  | _ => []
  end.

Definition input_values (placeholder : string) (n : Node) : list (option PropValue) :=
  flat_map (input_value_of placeholder) (nodes n).

End View.

(** ** What a history of events leaves behind *)
Module Observed.
Import Picker.

(** The library of the last selection, if any. *)
Definition last_library_selected (evs : list Event) : option string :=
  fold_left (fun acc e => match e with LibrarySelected v => Some v | _ => acc end)
    evs None.

(** The libraries selected, in order. *)
Definition libraries_selected (evs : list Event) : list string :=
  flat_map (fun e => match e with LibrarySelected v => [v] | _ => [] end) evs.

(** The text last typed into the library search, empty if none. *)
Definition last_library_text (evs : list Event) : string :=
  fold_left (fun acc e => match e with LibraryInputChange t => t | _ => acc end)
    evs "".

Definition is_Elapse (e : Event) : bool :=
  match e with Elapse _ => true | _ => false end.

End Observed.

(** * Properties *)

Import Picker Expected Observed.

(** Unfolding the handlers down to record updates, and splitting on what
    they test. *)
Ltac unfold_handlers :=
  unfold step, onLibraryInputChange, onXBlockInputChange, onLibrarySelected,
    onXblockSelected, onDeleteClick, onSaveClick, on_libraries, on_xblocks,
    debouncedFetchLibraries_callback, debouncedFetchXblocks_callback,
    fetchLibraries, fetchXblocks, fetch, settle, setState, is_pending,
    set_state, set_debouncedFetchLibraries, set_debouncedFetchXblocks, set_dom,
    set_requests, set_triggered, set_mounted in *.

Ltac split_cases :=
  repeat match goal with
    | |- context [match ?x with _ => _ end] => destruct x eqn:?; simpl in *
    | |- context [if ?x then _ else _] => destruct x eqn:?; simpl in *
    end.

(** ** Sets *)
Section SetFacts.

Lemma has_In (s : JSSet.t) (x : string) : JSSet.has s x = true <-> In x s.
Proof.
  unfold JSSet.has. rewrite existsb_exists. split.
  - intros [y [Hy Heq]]. apply String.eqb_eq in Heq. now subst.
  - intros H. exists x. split; [assumption | apply String.eqb_refl].
Qed.

Lemma add_In (s : JSSet.t) (x y : string) :
  In y (JSSet.add s x) <-> y = x \/ In y s.
Proof.
  unfold JSSet.add. destruct (JSSet.has s x) eqn:E.
  - apply has_In in E. split; [tauto | intros [-> | H]; assumption].
  - rewrite in_app_iff. simpl. intuition.
Qed.

Lemma add_NoDup (s : JSSet.t) (x : string) : NoDup s -> NoDup (JSSet.add s x).
Proof.
  intros H. unfold JSSet.add. destruct (JSSet.has s x) eqn:E; [assumption |].
  assert (~ In x s) as Hn by (rewrite <- has_In; congruence).
  clear E. induction H as [| a l Ha Hl IH]; simpl.
  - constructor; [intros [] | constructor].
  - constructor.
    + rewrite in_app_iff. simpl in *. intuition.
    + apply IH. simpl in Hn. tauto.
Qed.

Lemma delete_In (s : JSSet.t) (x y : string) :
  In y (JSSet.delete s x) <-> In y s /\ y <> x.
Proof.
  unfold JSSet.delete. rewrite filter_In, negb_true_iff, String.eqb_neq.
  intuition congruence.
Qed.

Lemma delete_NoDup (s : JSSet.t) (x : string) : NoDup s -> NoDup (JSSet.delete s x).
Proof. apply NoDup_filter. Qed.

Lemma fold_add_NoDup (l : list string) (s : JSSet.t) :
  NoDup s -> NoDup (fold_left JSSet.add l s).
Proof.
  revert s. induction l as [| a l IH]; simpl; intros s H; [assumption |].
  apply IH, add_NoDup, H.
Qed.

Lemma fold_add_In (l : list string) (s : JSSet.t) (y : string) :
  In y (fold_left JSSet.add l s) <-> In y s \/ In y l.
Proof.
  revert s. induction l as [| a l IH]; simpl; intros s; [tauto |].
  rewrite IH, add_In. intuition.
Qed.

Lemma of_iterable_NoDup (l : list string) : NoDup (JSSet.of_iterable l).
Proof. apply fold_add_NoDup. constructor. Qed.

Lemma of_iterable_In (l : list string) (y : string) :
  In y (JSSet.of_iterable l) <-> In y l.
Proof. unfold JSSet.of_iterable. rewrite fold_add_In. simpl. tauto. Qed.

(** Copying a set with [new Set(set)] gives the same elements in the same
    order. *)
Lemma fold_add_fresh (l s : list string) :
  NoDup (s ++ l) -> fold_left JSSet.add l s = s ++ l.
Proof.
  revert s. induction l as [| a l IH]; simpl; intros s H.
  - now rewrite app_nil_r.
  - assert (JSSet.add s a = s ++ [a]) as ->.
    { unfold JSSet.add. destruct (JSSet.has s a) eqn:E; [| reflexivity].
      apply has_In in E. apply NoDup_remove_2 in H.
      exfalso. apply H. rewrite in_app_iff. now left. }
    rewrite IH; rewrite <- app_assoc; [reflexivity | exact H].
Qed.

Lemma of_iterable_copy (s : JSSet.t) :
  NoDup s -> JSSet.of_iterable (JSSet.to_array s) = s.
Proof. intros H. apply (fold_add_fresh s []). exact H. Qed.

End SetFacts.

(** ** The parts of the world each step leaves alone *)
Section Frames.

Lemma tick_libraries_frame (w : World) :
  mounted (tick_libraries w) = mounted w /\
  props (tick_libraries w) = props w /\
  state (tick_libraries w) = state w /\
  dom (tick_libraries w) = dom w /\
  triggered (tick_libraries w) = triggered w /\
  debouncedFetchXblocks (tick_libraries w) = debouncedFetchXblocks w /\
  block_queries (issued (tick_libraries w)) = block_queries (issued w).
Proof.
  unfold tick_libraries, countdown. unfold_handlers. split_cases;
    repeat split; try reflexivity;
    unfold block_queries; rewrite flat_map_app; simpl; apply app_nil_r.
Qed.

Lemma tick_xblocks_frame (w : World) :
  mounted (tick_xblocks w) = mounted w /\
  props (tick_xblocks w) = props w /\
  state (tick_xblocks w) = state w /\
  dom (tick_xblocks w) = dom w /\
  triggered (tick_xblocks w) = triggered w /\
  debouncedFetchLibraries (tick_xblocks w) = debouncedFetchLibraries w /\
  library_queries (issued (tick_xblocks w)) = library_queries (issued w).
Proof.
  unfold tick_xblocks, countdown. unfold_handlers. split_cases;
    repeat split; try reflexivity;
    unfold library_queries; rewrite flat_map_app; simpl; apply app_nil_r.
Qed.

Lemma tick_frame (w : World) :
  mounted (tick w) = mounted w /\
  props (tick w) = props w /\
  state (tick w) = state w /\
  dom (tick w) = dom w /\
  triggered (tick w) = triggered w.
Proof.
  unfold tick.
  destruct (tick_xblocks_frame (tick_libraries w)) as (-> & -> & -> & -> & -> & _).
  destruct (tick_libraries_frame w) as (-> & -> & -> & -> & -> & _).
  repeat split.
Qed.

Lemma elapse_frame (d : nat) (w : World) :
  mounted (elapse d w) = mounted w /\
  props (elapse d w) = props w /\
  state (elapse d w) = state w /\
  dom (elapse d w) = dom w /\
  triggered (elapse d w) = triggered w.
Proof.
  unfold elapse. induction d as [| d IH]; simpl; [repeat split |].
  destruct (tick_frame (Nat.iter d tick w)) as (-> & -> & -> & -> & ->).
  exact IH.
Qed.

Lemma step_mounted (e : Event) (w : World) :
  is_Unmount e = false -> mounted (step e w) = mounted w.
Proof.
  destruct e; intros H; try discriminate H;
    try (unfold_handlers; simpl; split_cases; congruence).
  apply elapse_frame.
Qed.

Lemma step_props (e : Event) (w : World) : props (step e w) = props w.
Proof.
  destruct e; try (unfold_handlers; simpl; split_cases; congruence).
  apply elapse_frame.
Qed.

Lemma run_snoc (evs : list Event) (e : Event) (w : World) :
  run (evs ++ [e]) w = step e (run evs w).
Proof. unfold run. now rewrite fold_left_app. Qed.

Lemma run_app (evs evs' : list Event) (w : World) :
  run (evs ++ evs') w = run evs' (run evs w).
Proof. unfold run. now rewrite fold_left_app. Qed.

Lemma run_props (evs : list Event) (w : World) : props (run evs w) = props w.
Proof.
  induction evs as [| e evs IH] using rev_ind; [reflexivity |].
  now rewrite run_snoc, step_props.
Qed.

Lemma run_mounted (evs : list Event) (w : World) :
  existsb is_Unmount evs = false -> mounted (run evs w) = mounted w.
Proof.
  induction evs as [| e evs IH] using rev_ind; [reflexivity |].
  rewrite existsb_app. simpl. rewrite orb_false_r, orb_false_iff.
  intros [H1 H2]. now rewrite run_snoc, step_mounted, IH.
Qed.

(** The selection after a step, on a mounted component. *)
Lemma step_selection (e : Event) (w : World) :
  mounted w = true ->
  selectedXblocks (state (step e w)) =
    match selection_op e with
    | Some (v, true) =>
        JSSet.add (JSSet.of_iterable (JSSet.to_array (selectedXblocks (state w)))) v
    | Some (v, false) =>
        JSSet.delete (JSSet.of_iterable (JSSet.to_array (selectedXblocks (state w)))) v
    | None => selectedXblocks (state w)
    end.
Proof.
  intros Hm.
  destruct e; try (unfold_handlers; simpl; rewrite ?Hm; simpl; split_cases; congruence).
  simpl. now destruct (elapse_frame d w) as (_ & _ & -> & _).
Qed.

End Frames.

(** ** The selection set *)
Section Selection.

Lemma last_concerning_snoc (x : string) (evs : list Event) (e : Event) :
  last_concerning x (evs ++ [e]) =
    match concerns x e with
    | Some b => Some b
    | None => last_concerning x evs
    end.
Proof.
  induction evs as [| a evs IH]; simpl.
  - now destruct (concerns x e).
  - rewrite IH. now destruct (concerns x e).
Qed.

Lemma never_removed_last (x : string) (evs : list Event) :
  never_removed x evs -> last_concerning x evs <> Some false.
Proof.
  unfold never_removed.
  induction evs as [| e evs IH] using rev_ind; simpl; [congruence |].
  rewrite forallb_app, andb_true_iff, last_concerning_snoc. simpl.
  unfold removes. intros [H1 H2]. specialize (IH H1).
  destruct (concerns x e) as [[|]|]; simpl in *; congruence.
Qed.

Lemma unconcerned_never_removed (x : string) (evs : list Event) :
  last_concerning x evs = None -> never_removed x evs.
Proof.
  unfold never_removed.
  induction evs as [| e evs IH]; simpl; [reflexivity |].
  unfold removes.
  destruct (last_concerning x evs); [discriminate |].
  intros ->. simpl. now apply IH.
Qed.

(** The two ways of saying which identifiers are expected. *)
Lemma expected_iff (x : string) (init : list string) (evs : list Event) :
  match last_concerning x evs with Some b => b = true | None => In x init end <->
  last_concerning x evs = Some true \/ (In x init /\ never_removed x evs).
Proof.
  pose proof (never_removed_last x evs) as H1.
  pose proof (unconcerned_never_removed x evs) as H2.
  destruct (last_concerning x evs) as [[|]|]; intuition congruence.
Qed.

Lemma constructor_selection (p : Props.t) :
  selectedXblocks (state (constructor p)) = JSSet.of_iterable (Props.selectedXblocks p).
Proof. reflexivity. Qed.

Lemma constructor_mounted (p : Props.t) : mounted (constructor p) = true.
Proof. reflexivity. Qed.

(** The selection of a mounted component after any events: no identifier
    twice, and an identifier is in it exactly when the last event about it
    added it, or no event was about it and it was selected at the start. *)
Lemma snapshot_spec (p : Props.t) (evs : list Event) :
  existsb is_Unmount evs = false ->
  NoDup (selectedXblocks (state (run evs (constructor p)))) /\
  forall x, In x (selectedXblocks (state (run evs (constructor p)))) <->
    match last_concerning x evs with
    | Some b => b = true
    | None => In x (Props.selectedXblocks p)
    end.
Proof.
  induction evs as [| e evs IH] using rev_ind; intros Hu.
  - change (run [] (constructor p)) with (constructor p).
    rewrite constructor_selection. split.
    + apply of_iterable_NoDup.
    + intros x. apply of_iterable_In.
  - rewrite existsb_app in Hu. simpl in Hu.
    rewrite orb_false_r in Hu. apply orb_false_iff in Hu as [Hu He].
    destruct (IH Hu) as [Hnd Hin].
    rewrite run_snoc, step_selection
      by (rewrite run_mounted; [apply constructor_mounted | exact Hu]).
    rewrite of_iterable_copy by exact Hnd.
    split.
    + destruct (selection_op e) as [[v [|]]|];
        [now apply add_NoDup | now apply delete_NoDup | exact Hnd].
    + intros x. rewrite last_concerning_snoc. unfold concerns.
      destruct (selection_op e) as [[v [|]]|].
      * rewrite add_In, Hin.
        destruct (String.eqb_spec v x) as [-> | Hne]; intuition congruence.
      * rewrite delete_In, Hin.
        destruct (String.eqb_spec v x) as [-> | Hne]; intuition congruence.
      * apply Hin.
Qed.

(** C1.  After any sequence of events on a mounted component, in particular
    any sequence of checkbox toggles and deletions, whatever the identifiers
    selected at the start: the snapshot of the selection holds no identifier
    twice, and it holds an identifier exactly when the last event that
    concerns it was an addition, or it was selected at the start and never
    removed. *)
Theorem selection_membership (p : Props.t) (evs : list Event) :
  existsb is_Unmount evs = false ->
  let snapshot := JSSet.to_array (selectedXblocks (state (run evs (constructor p)))) in
  NoDup snapshot /\
  forall x, In x snapshot <->
    (last_concerning x evs = Some true \/
     (In x (Props.selectedXblocks p) /\ never_removed x evs)).
Proof.
  intros Hu snapshot. destruct (snapshot_spec p evs Hu) as [Hnd Hin].
  split; [exact Hnd |].
  intros x. unfold snapshot, JSSet.to_array.
  rewrite Hin. apply expected_iff.
Qed.

End Selection.

(** ** The debounce timers *)
Section Timers.

Lemma library_queries_app (l l' : list Query) :
  library_queries (l ++ l') = library_queries l ++ library_queries l'.
Proof. apply flat_map_app. Qed.

Lemma block_queries_app (l l' : list Query) :
  block_queries (l ++ l') = block_queries l ++ block_queries l'.
Proof. apply flat_map_app. Qed.

Lemma elapse_add (a b : nat) (w : World) : elapse (a + b) w = elapse b (elapse a w).
Proof. unfold elapse. rewrite Nat.add_comm. apply Nat.iter_add. Qed.

Lemma tick_libraries_waiting (n : nat) (w : World) (t : string) (lq : list string) :
  libraries_waiting (S (S n)) w t lq -> libraries_waiting (S n) (tick w) t lq.
Proof.
  intros (ev & Hd & Ht & Hv & Hq). exists ev. unfold tick.
  destruct (tick_xblocks_frame (tick_libraries w)) as (_ & _ & _ & -> & _ & -> & ->).
  unfold tick_libraries, countdown. rewrite Hd. simpl.
  rewrite ?Nat.sub_0_r. repeat split; assumption.
Qed.

Lemma tick_libraries_due (w : World) (t : string) (lq : list string) :
  libraries_waiting 1 w t lq ->
  debouncedFetchLibraries (tick w) <> None /\
  option_map timer (debouncedFetchLibraries (tick w)) = Some None /\
  libraries_bound (tick w) /\
  library_queries (issued (tick w)) = lq ++ [t].
Proof.
  intros (ev & Hd & Ht & Hv & Hq). unfold tick, libraries_bound.
  destruct (tick_xblocks_frame (tick_libraries w)) as (_ & _ & _ & _ & _ & -> & ->).
  unfold tick_libraries, countdown. rewrite Hd. simpl.
  unfold debouncedFetchLibraries_callback, fetchLibraries, fetch. simpl.
  rewrite library_queries_app, Hq, Ht. simpl. rewrite Hv.
  repeat split; try congruence.
  intros d [= <-]. exact Ht.
Qed.

Lemma tick_libraries_idle (w : World) :
  option_map timer (debouncedFetchLibraries w) <> Some (Some 0) ->
  (forall n, option_map timer (debouncedFetchLibraries w) <> Some (Some (S n))) ->
  debouncedFetchLibraries (tick w) = debouncedFetchLibraries w /\
  library_queries (issued (tick w)) = library_queries (issued w).
Proof.
  intros H0 HS. unfold tick.
  destruct (tick_xblocks_frame (tick_libraries w)) as (_ & _ & _ & _ & _ & -> & ->).
  unfold tick_libraries, countdown.
  destruct (debouncedFetchLibraries w) as [[ev [[| n] |]] |] eqn:E; simpl in *;
    try (rewrite ?E; split; reflexivity).
  - congruence.
  - exfalso. apply (HS n). reflexivity.
Qed.

Lemma elapse_libraries_waiting (d n : nat) (w : World) (t : string) (lq : list string) :
  libraries_waiting (d + S n) w t lq -> libraries_waiting (S n) (elapse d w) t lq.
Proof.
  revert n. induction d as [| d IH]; intros n H; [exact H |].
  change (elapse (S d) w) with (tick (elapse d w)).
  apply tick_libraries_waiting, IH.
  now replace (d + S (S n)) with (S d + S n) by lia.
Qed.

Lemma elapse_libraries_idle (d : nat) (w : World) :
  option_map timer (debouncedFetchLibraries w) <> Some (Some 0) ->
  (forall n, option_map timer (debouncedFetchLibraries w) <> Some (Some (S n))) ->
  debouncedFetchLibraries (elapse d w) = debouncedFetchLibraries w /\
  library_queries (issued (elapse d w)) = library_queries (issued w).
Proof.
  intros H0 HS. induction d as [| d [IH1 IH2]]; [split; reflexivity |].
  change (elapse (S d) w) with (tick (elapse d w)).
  destruct (tick_libraries_idle (elapse d w)) as [-> ->];
    rewrite ?IH1; auto.
Qed.

(** Once the time left has passed, the callback has run exactly once, with
    the text the field shows. *)
Lemma elapse_libraries_due (n d : nat) (w : World) (t : string) (lq : list string) :
  libraries_waiting (S n) w t lq -> n < d ->
  library_queries (issued (elapse d w)) = lq ++ [t].
Proof.
  intros H Hlt.
  replace d with (n + (1 + (d - S n))) by lia.
  rewrite elapse_add, elapse_add.
  assert (libraries_waiting 1 (elapse n w) t lq) as H1
    by (apply elapse_libraries_waiting; now replace (n + 1) with (S n) by lia).
  apply tick_libraries_due in H1 as (_ & Htimer & _ & Hq).
  change (elapse 1 (elapse n w)) with (tick (elapse n w)).
  destruct (elapse_libraries_idle (d - S n) (tick (elapse n w))) as [_ ->];
    [rewrite Htimer; congruence | intros k; rewrite Htimer; congruence | exact Hq].
Qed.

Lemma tick_xblocks_waiting (n : nat) (w : World) (t : string)
  (bq : list (option string * string)) :
  xblocks_waiting (S (S n)) w t bq -> xblocks_waiting (S n) (tick w) t bq.
Proof.
  intros (ev & Hd & Ht & Hv & Hq). exists ev. unfold tick.
  destruct (tick_libraries_frame w) as (_ & _ & _ & Hdom & _ & Hdeb & Hbq).
  unfold tick_xblocks, countdown. rewrite Hdeb, Hd. simpl.
  rewrite ?Nat.sub_0_r, Hdom, Hbq. repeat split; assumption.
Qed.

Lemma tick_xblocks_due (w : World) (t : string) (bq : list (option string * string)) :
  xblocks_waiting 1 w t bq ->
  option_map timer (debouncedFetchXblocks (tick w)) = Some None /\
  block_queries (issued (tick w)) = bq ++ [(selectedLibrary (state w), t)].
Proof.
  intros (ev & Hd & Ht & Hv & Hq). unfold tick.
  destruct (tick_libraries_frame w) as (_ & _ & Hst & Hdom & _ & Hdeb & Hbq).
  unfold tick_xblocks, countdown. rewrite Hdeb, Hd. simpl.
  unfold debouncedFetchXblocks_callback, fetchXblocks, fetch. simpl.
  rewrite block_queries_app, Hbq, Hq, Hst, Hdom, Ht. simpl. rewrite Hv.
  split; reflexivity.
Qed.

Lemma tick_xblocks_idle (w : World) :
  option_map timer (debouncedFetchXblocks w) <> Some (Some 0) ->
  (forall n, option_map timer (debouncedFetchXblocks w) <> Some (Some (S n))) ->
  debouncedFetchXblocks (tick w) = debouncedFetchXblocks w /\
  block_queries (issued (tick w)) = block_queries (issued w).
Proof.
  intros H0 HS. unfold tick.
  destruct (tick_libraries_frame w) as (_ & _ & _ & _ & _ & Hdeb & Hbq).
  rewrite <- Hdeb, <- Hbq in *.
  unfold tick_xblocks, countdown.
  destruct (debouncedFetchXblocks (tick_libraries w)) as [[ev [[| n] |]] |] eqn:E;
    simpl in *; try (rewrite ?E; split; reflexivity).
  - congruence.
  - exfalso. apply (HS n). reflexivity.
Qed.

Lemma elapse_xblocks_waiting (d n : nat) (w : World) (t : string)
  (bq : list (option string * string)) :
  xblocks_waiting (d + S n) w t bq -> xblocks_waiting (S n) (elapse d w) t bq.
Proof.
  revert n. induction d as [| d IH]; intros n H; [exact H |].
  change (elapse (S d) w) with (tick (elapse d w)).
  apply tick_xblocks_waiting, IH.
  now replace (d + S (S n)) with (S d + S n) by lia.
Qed.

Lemma elapse_xblocks_idle (d : nat) (w : World) :
  option_map timer (debouncedFetchXblocks w) <> Some (Some 0) ->
  (forall n, option_map timer (debouncedFetchXblocks w) <> Some (Some (S n))) ->
  debouncedFetchXblocks (elapse d w) = debouncedFetchXblocks w /\
  block_queries (issued (elapse d w)) = block_queries (issued w).
Proof.
  intros H0 HS. induction d as [| d [IH1 IH2]]; [split; reflexivity |].
  change (elapse (S d) w) with (tick (elapse d w)).
  destruct (tick_xblocks_idle (elapse d w)) as [-> ->];
    rewrite ?IH1; auto.
Qed.

(** For the block field the callback reads the selected library when it
    runs. *)
Lemma elapse_xblocks_due (n d : nat) (w : World) (t : string)
  (bq : list (option string * string)) :
  xblocks_waiting (S n) w t bq -> n < d ->
  block_queries (issued (elapse d w)) = bq ++ [(selectedLibrary (state w), t)].
Proof.
  intros H Hlt.
  replace d with (n + (1 + (d - S n))) by lia.
  rewrite elapse_add, elapse_add.
  assert (xblocks_waiting 1 (elapse n w) t bq) as H1
    by (apply elapse_xblocks_waiting; now replace (n + 1) with (S n) by lia).
  apply tick_xblocks_due in H1 as (Htimer & Hq).
  change (elapse 1 (elapse n w)) with (tick (elapse n w)).
  destruct (elapse_xblocks_idle (d - S n) (tick (elapse n w))) as [_ ->];
    [rewrite Htimer; congruence | intros k; rewrite Htimer; congruence |].
  rewrite Hq. now destruct (elapse_frame n w) as (_ & _ & -> & _).
Qed.

Lemma countdown_captured (d : Debounced) : captured (fst (countdown d)) = captured d.
Proof.
  unfold countdown. destruct (timer d) as [n |]; [destruct (n <=? 1) |]; reflexivity.
Qed.

(** Time does not change which event a debounced function captured. *)
Lemma tick_captured (w : World) :
  option_map captured (debouncedFetchLibraries (tick w)) =
    option_map captured (debouncedFetchLibraries w) /\
  option_map captured (debouncedFetchXblocks (tick w)) =
    option_map captured (debouncedFetchXblocks w).
Proof.
  unfold tick.
  destruct (tick_xblocks_frame (tick_libraries w)) as (_ & _ & _ & _ & _ & -> & _).
  destruct (tick_libraries_frame w) as (_ & _ & _ & _ & _ & Hdeb & _).
  rewrite <- Hdeb. split.
  - unfold tick_libraries.
    destruct (debouncedFetchLibraries w) as [d |] eqn:E; [| now rewrite E].
    pose proof (countdown_captured d) as Hc.
    destruct (countdown d) as [d' [|]]; simpl in *; now rewrite Hc.
  - unfold tick_xblocks.
    destruct (debouncedFetchXblocks (tick_libraries w)) as [d |] eqn:E; [| now rewrite E].
    pose proof (countdown_captured d) as Hc.
    destruct (countdown d) as [d' [|]]; simpl in *; now rewrite Hc.
Qed.

Lemma elapse_captured (d : nat) (w : World) :
  option_map captured (debouncedFetchLibraries (elapse d w)) =
    option_map captured (debouncedFetchLibraries w) /\
  option_map captured (debouncedFetchXblocks (elapse d w)) =
    option_map captured (debouncedFetchXblocks w).
Proof.
  induction d as [| d [IH1 IH2]]; [split; reflexivity |].
  change (elapse (S d) w) with (tick (elapse d w)).
  destruct (tick_captured (elapse d w)) as [-> ->]. now split.
Qed.

Lemma bound_captured (w w' : World) :
  option_map captured (debouncedFetchLibraries w') =
    option_map captured (debouncedFetchLibraries w) ->
  option_map captured (debouncedFetchXblocks w') =
    option_map captured (debouncedFetchXblocks w) ->
  libraries_bound w /\ xblocks_bound w -> libraries_bound w' /\ xblocks_bound w'.
Proof.
  unfold libraries_bound, xblocks_bound. intros H1 H2 [Hl Hx]. split.
  - intros d Hd. rewrite Hd in H1.
    destruct (debouncedFetchLibraries w) as [d0 |]; [| discriminate].
    injection H1 as ->. now apply Hl.
  - intros d Hd. rewrite Hd in H2.
    destruct (debouncedFetchXblocks w) as [d0 |]; [| discriminate].
    injection H2 as ->. now apply Hx.
Qed.

(** Every debounced function was created by an event on its own field. *)
Lemma step_bound (e : Event) (w : World) :
  libraries_bound w /\ xblocks_bound w ->
  libraries_bound (step e w) /\ xblocks_bound (step e w).
Proof.
  intros H.
  destruct e;
    try (apply (bound_captured w); [| | exact H];
         unfold_handlers; simpl; split_cases; reflexivity).
  - destruct H as [Hl Hx]. split.
    + unfold libraries_bound in *. unfold_handlers. simpl.
      destruct (mounted w); simpl;
        destruct (debouncedFetchLibraries w) as [d0 |] eqn:E; simpl;
        intros d1 [= <-]; simpl; try reflexivity; now apply Hl.
    + unfold xblocks_bound in *. unfold_handlers. simpl.
      destruct (mounted w); simpl;
        destruct (debouncedFetchLibraries w); simpl; exact Hx.
  - destruct H as [Hl Hx]. split.
    + unfold libraries_bound in *. unfold_handlers. simpl.
      destruct (mounted w); simpl;
        destruct (debouncedFetchXblocks w); simpl; exact Hl.
    + unfold xblocks_bound in *. unfold_handlers. simpl.
      destruct (mounted w); simpl;
        destruct (debouncedFetchXblocks w) as [d0 |] eqn:E; simpl;
        intros d1 [= <-]; simpl; try reflexivity; now apply Hx.
  - apply (bound_captured w); [| | exact H]; apply elapse_captured.
Qed.

Lemma run_bound (p : Props.t) (evs : list Event) :
  libraries_bound (run evs (constructor p)) /\ xblocks_bound (run evs (constructor p)).
Proof.
  induction evs as [| e evs IH] using rev_ind.
  - split; intros d Hd; discriminate Hd.
  - rewrite run_snoc. apply step_bound, IH.
Qed.

End Timers.

(** ** Searching *)
Section Searching.

Lemma waiting_libraries_bound (n : nat) (w : World) (t : string) (lq : list string) :
  libraries_waiting n w t lq -> libraries_bound w.
Proof. intros (ev & Hd & Ht & _) d Hd'. rewrite Hd in Hd'. now injection Hd' as <-. Qed.

Lemma waiting_xblocks_bound (n : nat) (w : World) (t : string)
  (bq : list (option string * string)) :
  xblocks_waiting n w t bq -> xblocks_bound w.
Proof. intros (ev & Hd & Ht & _) d Hd'. rewrite Hd in Hd'. now injection Hd' as <-. Qed.

(** A text change shows the text in its field and leaves a full window
    before the callback. *)
Lemma change_libraries_waiting (t : string) (w : World) :
  libraries_bound w ->
  libraries_waiting wait (step (LibraryInputChange t) w) t (library_queries (issued w)).
Proof.
  intros Hb. unfold libraries_waiting, step, onLibraryInputChange, setState.
  simpl. destruct (mounted w); simpl;
    (destruct (debouncedFetchLibraries w) as [d0 |] eqn:E; simpl;
     [rewrite ?E; exists (captured d0); repeat split; now apply Hb
     | eexists; repeat split]).
Qed.

Lemma change_xblocks_waiting (t : string) (w : World) :
  xblocks_bound w ->
  xblocks_waiting wait (step (XBlockInputChange t) w) t (block_queries (issued w)) /\
  selectedLibrary (state (step (XBlockInputChange t) w)) = selectedLibrary (state w).
Proof.
  intros Hb. unfold xblocks_waiting, step, onXBlockInputChange, setState.
  simpl. destruct (mounted w); simpl;
    (destruct (debouncedFetchXblocks w) as [d0 |] eqn:E; simpl;
     (split; [| reflexivity]);
     [rewrite ?E; exists (captured d0); repeat split; now apply Hb
     | eexists; repeat split]).
Qed.

Lemma last_cons {A} (a d : A) (l : list A) : last (a :: l) d = last l a.
Proof.
  revert a d. induction l as [| b l IH]; intros a d; [reflexivity |].
  change (last (a :: b :: l) d) with (last (b :: l) d).
  now rewrite !IH.
Qed.

Lemma burst_libraries (rest : list (nat * string)) (extra : nat) (lq : list string) :
  forall (w : World) (t : string),
    libraries_waiting wait w t lq ->
    Forall (fun dt => fst dt < wait) rest ->
    library_queries
      (issued (run (flat_map (fun dt => [Elapse (fst dt); LibraryInputChange (snd dt)]) rest
                      ++ [Elapse (wait + extra)]) w))
    = lq ++ [last (map snd rest) t].
Proof.
  induction rest as [| [d t'] rest IH]; intros w t Hw Hall.
  - cbn [flat_map app run fold_left step map last].
    apply (elapse_libraries_due (wait - 1)); [exact Hw | unfold wait; lia].
  - inversion Hall as [| ? ? Hd Hrest]; subst. simpl in Hd.
    cbn [flat_map map fst snd app]. rewrite last_cons.
    change (run ((?a :: ?b :: ?l) ++ ?k) w) with (run (l ++ k) (step b (step a w))).
    apply IH; [| exact Hrest].
    assert (libraries_waiting (S (wait - d - 1)) (elapse d w) t lq) as He.
    { apply elapse_libraries_waiting.
      now replace (d + S (wait - d - 1)) with wait by lia. }
    pose proof (change_libraries_waiting t' (elapse d w)
                  (waiting_libraries_bound _ _ _ _ He)) as Hc.
    destruct He as (_ & _ & _ & _ & <-). exact Hc.
Qed.

Lemma burst_xblocks (rest : list (nat * string)) (extra : nat)
  (bq : list (option string * string)) (lib : option string) :
  forall (w : World) (t : string),
    xblocks_waiting wait w t bq ->
    selectedLibrary (state w) = lib ->
    Forall (fun dt => fst dt < wait) rest ->
    block_queries
      (issued (run (flat_map (fun dt => [Elapse (fst dt); XBlockInputChange (snd dt)]) rest
                      ++ [Elapse (wait + extra)]) w))
    = bq ++ [(lib, last (map snd rest) t)].
Proof.
  induction rest as [| [d t'] rest IH]; intros w t Hw Hlib Hall.
  - cbn [flat_map app run fold_left step map last]. rewrite <- Hlib.
    apply (elapse_xblocks_due (wait - 1)); [exact Hw | unfold wait; lia].
  - inversion Hall as [| ? ? Hd Hrest]; subst. simpl in Hd.
    cbn [flat_map map fst snd app]. rewrite last_cons.
    change (run ((?a :: ?b :: ?l) ++ ?k) w) with (run (l ++ k) (step b (step a w))).
    assert (xblocks_waiting (S (wait - d - 1)) (elapse d w) t bq) as He.
    { apply elapse_xblocks_waiting.
      now replace (d + S (wait - d - 1)) with wait by lia. }
    destruct (change_xblocks_waiting t' (elapse d w)
                (waiting_xblocks_bound _ _ _ _ He)) as [Hc Hs].
    apply IH; [| | exact Hrest].
    + destruct He as (_ & _ & _ & _ & <-). exact Hc.
    + cbn [step] in *. rewrite Hs. now destruct (elapse_frame d w) as (_ & _ & -> & _).
Qed.

(** C2.  After any history, a burst of text changes on one search field, each
    less than the window after the one before, followed by a full window (or
    more) without a change, dispatches exactly one query for that field, and
    the text of that query is the text of the last change of the burst.  This
    holds for the library field and for the block field. *)
Theorem debounce_burst (p : Props.t) (evs : list Event)
  (t0 : string) (rest : list (nat * string)) (extra : nat) :
  Forall (fun dt => fst dt < wait) rest ->
  let w := run evs (constructor p) in
  library_queries
    (issued (run (burst LibraryInputChange t0 rest ++ [Elapse (wait + extra)]) w))
  = library_queries (issued w) ++ [last_text t0 rest]
  /\
  block_queries
    (issued (run (burst XBlockInputChange t0 rest ++ [Elapse (wait + extra)]) w))
  = block_queries (issued w) ++ [(selectedLibrary (state w), last_text t0 rest)].
Proof.
  intros Hall w. destruct (run_bound p evs) as [Hl Hx]. fold w in Hl, Hx.
  unfold burst, last_text. split.
  - change (run ((?a :: ?l) ++ ?k) w) with (run (l ++ k) (step a w)).
    apply burst_libraries; [| exact Hall].
    now apply change_libraries_waiting.
  - change (run ((?a :: ?l) ++ ?k) w) with (run (l ++ k) (step a w)).
    destruct (change_xblocks_waiting t0 w Hx) as [Hc Hs].
    apply burst_xblocks; [exact Hc | exact Hs | exact Hall].
Qed.

End Searching.

(** ** Requests and responses *)
Section Requests.

Lemma is_pending_last (w : World) (q : Query) :
  is_pending (List.length (issued w)) (fetch q w) = true.
Proof.
  unfold is_pending, fetch. simpl. rewrite existsb_app. simpl.
  now rewrite Nat.eqb_refl, orb_true_r.
Qed.

Lemma nth_error_last (w : World) (q : Query) :
  nth_error (issued (fetch q w)) (List.length (issued w)) = Some q.
Proof.
  unfold fetch. simpl. rewrite nth_error_app2 by lia. now rewrite Nat.sub_diag.
Qed.

(** A response to a pending block request is stored as the block list. *)
Lemma on_xblocks_stores (rid : nat) (response : list Block) (w : World)
  (library : option string) (text_search : string) :
  mounted w = true ->
  is_pending rid w = true ->
  nth_error (issued w) rid = Some (ListBlocks library text_search) ->
  state (on_xblocks rid response w) = with_xblocks response (state w) /\
  mounted (on_xblocks rid response w) = true /\
  issued (on_xblocks rid response w) = issued w /\
  forall i, i <> rid -> is_pending i (on_xblocks rid response w) = is_pending i w.
Proof.
  intros Hm Hp Hn. unfold on_xblocks. rewrite Hp, Hn.
  unfold setState, settle. simpl. rewrite Hm. simpl.
  do 3 (split; [now rewrite ?Hm |]).
  intros i Hi. unfold is_pending. simpl.
  induction (pending w) as [| a l IH]; [reflexivity |].
  simpl. destruct (Nat.eqb_spec a rid) as [-> | Hne]; simpl.
  - rewrite IH. destruct (Nat.eqb_spec i rid); [contradiction | reflexivity].
  - now rewrite IH.
Qed.

(** C6.  On a mounted component, selecting library [L] sets
    [selectedLibrary] to [L]; issues at once exactly one request, the block
    query for [L] with the empty text filter; touches neither debounced
    function; leaves the selection as it was; and when the response to that
    request arrives, the block list is replaced by it and the selection is
    still as it was. *)
Theorem library_selected (w : World) (L : string) :
  mounted w = true ->
  let w' := step (LibrarySelected L) w in
  selectedLibrary (state w') = Some L /\
  issued w' = issued w ++ [ListBlocks (Some L) ""] /\
  pending w' = pending w ++ [List.length (issued w)] /\
  debouncedFetchLibraries w' = debouncedFetchLibraries w /\
  debouncedFetchXblocks w' = debouncedFetchXblocks w /\
  selectedXblocks (state w') = selectedXblocks (state w) /\
  forall response,
    let w'' := step (BlocksResponse (List.length (issued w)) response) w' in
    xblocks (state w'') = response /\
    selectedXblocks (state w'') = selectedXblocks (state w).
Proof.
  intros Hm w'.
  assert (state w' = with_selectedLibrary (Some L) (state w)) as Hs
    by (unfold w', step, onLibrarySelected, setState; now rewrite Hm).
  assert (mounted w' = true) as Hm'
    by (unfold w', step, onLibrarySelected, setState; now rewrite Hm).
  assert (w' = fetch (ListBlocks (Some L) "") (setState (with_selectedLibrary (Some L)) w))
    as Hw by reflexivity.
  assert (issued (setState (with_selectedLibrary (Some L)) w) = issued w) as Hi
    by (unfold setState; now rewrite Hm).
  rewrite Hs.
  do 6 (split; [unfold w', step, onLibrarySelected, setState; now rewrite ?Hm |]).
  intros response w''. unfold w'', step.
  destruct (on_xblocks_stores (List.length (issued w)) response w' (Some L) "")
    as (-> & _); [exact Hm' | | | now rewrite Hs].
  - rewrite Hw, <- Hi. apply is_pending_last.
  - rewrite Hw, <- Hi. apply nth_error_last.
Qed.

Lemma library_selected_witness :
  let w := constructor Props.defaultProps in
  let w' := step (LibrarySelected "lib:edX:maths") w in
  selectedLibrary (state w') = Some "lib:edX:maths" /\
  issued w' = issued w ++ [ListBlocks (Some "lib:edX:maths") ""] /\
  pending w' = pending w ++ [List.length (issued w)] /\
  debouncedFetchLibraries w' = debouncedFetchLibraries w /\
  debouncedFetchXblocks w' = debouncedFetchXblocks w /\
  selectedXblocks (state w') = selectedXblocks (state w) /\
  forall response,
    let w'' := step (BlocksResponse (List.length (issued w)) response) w' in
    xblocks (state w'') = response /\
    selectedXblocks (state w'') = selectedXblocks (state w).
Proof.
  apply (library_selected (constructor Props.defaultProps) "lib:edX:maths").
  reflexivity.
Defined.

(** C3, as the component behaves.  Of two pending block requests, issued in
    either order, the block list ends up holding the response that arrived
    last: a response is stored when it arrives, whichever request it
    answers. *)
Theorem blocks_last_completed (w : World) (i j : nat)
  (li lj : option string) (ti tj : string) (ri rj : list Block) :
  mounted w = true ->
  i <> j ->
  is_pending i w = true ->
  is_pending j w = true ->
  nth_error (issued w) i = Some (ListBlocks li ti) ->
  nth_error (issued w) j = Some (ListBlocks lj tj) ->
  xblocks (state (run [BlocksResponse i ri; BlocksResponse j rj] w)) = rj.
Proof.
  intros Hm Hij Hpi Hpj Hni Hnj. cbn [run fold_left step].
  destruct (on_xblocks_stores i ri w li ti Hm Hpi Hni) as (_ & Hm' & Hi' & Hp').
  destruct (on_xblocks_stores j rj (on_xblocks i ri w) lj tj)
    as (-> & _); [exact Hm' | | | reflexivity].
  - rewrite Hp' by congruence. exact Hpj.
  - now rewrite Hi'.
Qed.

End Requests.

Section RequestExamples.

Let r1 : list Block := [{| block_id := "b1"; display_name := "One" |}].
Let r2 : list Block := [{| block_id := "b2"; display_name := "Two" |}].

Lemma blocks_last_completed_witness :
  let w := run [LibrarySelected "L1"; LibrarySelected "L2"] (constructor Props.defaultProps) in
  xblocks (state (run [BlocksResponse 2 r2; BlocksResponse 1 r1] w)) = r1.
Proof.
  intros w.
  apply (blocks_last_completed w 2 1 (Some "L2") (Some "L1") "" "" r2 r1);
    [reflexivity | lia | reflexivity | reflexivity | reflexivity | reflexivity].
Defined.

(** C3 fails as stated.  Library L1 is selected, then L2; the response to
    L2's request arrives first and the response to L1's request after it: the
    block list then holds L1's response, not the response of the request
    issued last. *)
Lemma blocks_latest_issued_counterexample :
  let w := run [LibrarySelected "L1"; LibrarySelected "L2"] (constructor Props.defaultProps) in
  nth_error (issued w) 1 = Some (ListBlocks (Some "L1") "") /\
  nth_error (issued w) 2 = Some (ListBlocks (Some "L2") "") /\
  selectedLibrary (state w) = Some "L2" /\
  xblocks (state (run [BlocksResponse 2 r2; BlocksResponse 1 r1] w)) <> r2.
Proof.
  vm_compute. repeat split; discriminate.
Qed.

End RequestExamples.

(** ** The block search and the selected library *)
Section BlockSearch.

Lemma selected_xblocks_waiting (n : nat) (w : World) (t : string)
  (bq : list (option string * string)) (L : string) :
  mounted w = true ->
  xblocks_waiting n w t bq ->
  xblocks_waiting n (step (LibrarySelected L) w) t (bq ++ [(Some L, "")]) /\
  selectedLibrary (state (step (LibrarySelected L) w)) = Some L.
Proof.
  intros Hm (ev & Hd & Ht & Hv & Hq).
  unfold xblocks_waiting, step, onLibrarySelected, setState. rewrite Hm.
  unfold fetchXblocks, fetch. simpl. split; [| reflexivity].
  exists ev. rewrite block_queries_app, Hq. repeat split; assumption.
Qed.

(** C4, as the component behaves.  A block search text change, then the
    selection of library [L] before the window has passed: when the window
    has passed, the debounced block query names [L], the library selected when
    the timer expires, and the text typed. *)
Theorem debounced_blocks_library_at_expiry (p : Props.t) (evs : list Event)
  (text L : string) (d extra : nat) :
  d < wait ->
  mounted (run evs (constructor p)) = true ->
  let w := run evs (constructor p) in
  block_queries
    (issued (run [XBlockInputChange text; Elapse d; LibrarySelected L;
                  Elapse (wait - d + extra)] w))
  = block_queries (issued w) ++ [(Some L, ""); (Some L, text)].
Proof.
  intros Hd Hm w. fold w in Hm.
  destruct (run_bound p evs) as [_ Hx]. fold w in Hx.
  cbn [run fold_left step].
  destruct (change_xblocks_waiting text w Hx) as [Hc _].
  assert (mounted (elapse d (step (XBlockInputChange text) w)) = true) as Hm2.
  { destruct (elapse_frame d (step (XBlockInputChange text) w)) as (-> & _).
    now rewrite step_mounted. }
  assert (xblocks_waiting (S (wait - d - 1)) (elapse d (step (XBlockInputChange text) w))
            text (block_queries (issued w))) as He.
  { apply elapse_xblocks_waiting.
    now replace (d + S (wait - d - 1)) with wait by lia. }
  destruct (selected_xblocks_waiting _ _ _ _ L Hm2 He) as [Hs Hlib].
  cbn [step] in Hs, Hlib.
  rewrite (elapse_xblocks_due (wait - d - 1) _ _ text _ Hs) by lia.
  rewrite Hlib, <- app_assoc. reflexivity.
Qed.

Lemma debounced_blocks_library_at_expiry_witness :
  block_queries
    (issued (run [XBlockInputChange "quiz"; Elapse 100; LibrarySelected "L2";
                  Elapse (wait - 100 + 0)]
               (run [LibrarySelected "L1"] (constructor Props.defaultProps))))
  = block_queries (issued (run [LibrarySelected "L1"] (constructor Props.defaultProps)))
      ++ [(Some "L2", ""); (Some "L2", "quiz")].
Proof.
  apply (debounced_blocks_library_at_expiry Props.defaultProps [LibrarySelected "L1"]
           "quiz" "L2" 100 0); [unfold wait; lia | reflexivity].
Defined.

(** C4 fails as stated.  With library L1 selected the author types "quiz"
    into the block search; a third of the window later L2 is selected; when
    the window has passed, the debounced query asks for the blocks of L2, and
    no query for "quiz" in L1, the library selected when the query was
    scheduled, is ever issued. *)
Lemma debounced_blocks_library_at_schedule_counterexample :
  let scheduled := run [LibrarySelected "L1"; XBlockInputChange "quiz"]
                     (constructor Props.defaultProps) in
  let expired := run [Elapse 100; LibrarySelected "L2"; Elapse 200] scheduled in
  selectedLibrary (state scheduled) = Some "L1" /\
  issued expired = issued scheduled
                     ++ [ListBlocks (Some "L2") ""; ListBlocks (Some "L2") "quiz"] /\
  ~ In (ListBlocks (Some "L1") "quiz") (issued expired).
Proof.
  vm_compute. repeat split.
  intros H. repeat (destruct H as [H | H]; [discriminate H |]). exact H.
Qed.

End BlockSearch.

(** ** Before a library is selected *)
Section NoLibrary.

Lemma step_selectedLibrary (e : Event) (w : World) :
  is_LibrarySelected e = false ->
  selectedLibrary (state (step e w)) = selectedLibrary (state w).
Proof.
  destruct e; intros H; try discriminate H;
    try (unfold_handlers; simpl; split_cases; congruence).
  cbn [step]. now destruct (elapse_frame d w) as (_ & _ & -> & _).
Qed.

(** Only a block search text change creates the debounced block query, and
    only it and a library selection lead to a block query. *)
Lemma step_no_block_query (e : Event) (w : World) :
  is_LibrarySelected e = false ->
  is_XBlockInputChange e = false ->
  debouncedFetchXblocks w = None ->
  debouncedFetchXblocks (step e w) = None /\
  block_queries (issued (step e w)) = block_queries (issued w).
Proof.
  destruct e; intros H1 H2 Hd; try discriminate H1; try discriminate H2;
    try (unfold_handlers; simpl; split_cases; split; congruence).
  cbn [step].
  destruct (elapse_xblocks_idle d w) as [-> ->];
    [now rewrite Hd | intros n; now rewrite Hd | now split].
Qed.

(** C5, as the component behaves.  After any events none of which selects a
    library, [selectedLibrary] is undefined; and if moreover none of them is a
    block search text change, no block query has been issued. *)
Theorem before_library_selection (p : Props.t) (evs : list Event) :
  existsb is_LibrarySelected evs = false ->
  let w := run evs (constructor p) in
  selectedLibrary (state w) = None /\
  (existsb is_XBlockInputChange evs = false ->
   debouncedFetchXblocks w = None /\ block_queries (issued w) = []).
Proof.
  induction evs as [| e evs IH] using rev_ind; intros Hs w.
  - split; [reflexivity | intros _; split; reflexivity].
  - unfold w. rewrite run_snoc.
    rewrite existsb_app in Hs. simpl in Hs. rewrite orb_false_r in Hs.
    apply orb_false_iff in Hs as [Hs He].
    destruct (IH Hs) as [IH1 IH2]. split.
    + now rewrite step_selectedLibrary.
    + intros Hx. rewrite existsb_app in Hx. simpl in Hx. rewrite orb_false_r in Hx.
      apply orb_false_iff in Hx as [Hx Hxe].
      destruct (IH2 Hx) as [Hd Hq].
      destruct (step_no_block_query e _ He Hxe Hd) as [-> ->]. now split.
Qed.

Lemma before_library_selection_witness :
  let w := run [LibraryInputChange "algebra"; XblockSelected true "block-3";
                Elapse 300; DeleteClick "block-3"; SaveClick]
             (constructor Props.defaultProps) in
  selectedLibrary (state w) = None /\
  debouncedFetchXblocks w = None /\ block_queries (issued w) = [].
Proof.
  intros w.
  destruct (before_library_selection Props.defaultProps
              [LibraryInputChange "algebra"; XblockSelected true "block-3";
               Elapse 300; DeleteClick "block-3"; SaveClick] eq_refl) as [H1 H2].
  split; [exact H1 | exact (H2 eq_refl)].
Defined.

(** C5 fails as stated.  No library has been selected; the author types
    "quiz" into the block search and the window passes: a block query is
    issued, for the library [undefined]. *)
Lemma no_block_query_before_selection_counterexample :
  let evs := [XBlockInputChange "quiz"; Elapse 300] in
  let w := run evs (constructor Props.defaultProps) in
  existsb is_LibrarySelected evs = false /\
  selectedLibrary (state w) = None /\
  issued w = [ListLibraries ""; ListBlocks None "quiz"] /\
  map url (issued w) = ["/api/libraries/v2?text_search=";
                        "/api/libraries/v2/undefined/blocks?text_search=quiz"] /\
  block_queries (issued w) <> [].
Proof.
  vm_compute. repeat split. discriminate.
Qed.

End NoLibrary.

(** ** Saving *)
Section Saving.

(** C7.  In every state, a save click triggers one 'save' event whose
    parameters are the save URL given in the props and the snapshot of the
    selection; it leaves [this.state], and so the selection, unchanged; and
    the request the author view builds from the event posts these identifiers
    to that URL.  When the state is the one a mounted component has reached
    through some events, every identifier whose last event was a toggle to
    checked is among [source_block_ids]. *)
Theorem save_hands_over_snapshot (w : World) :
  let params := {| save_url := Props.saveUrl (props w);
                   source_block_ids := JSSet.to_array (selectedXblocks (state w)) |} in
  triggered (step SaveClick w) = triggered w ++ [params] /\
  state (step SaveClick w) = state w /\
  SaveBridge.ajax_url (SaveBridge.on_save params) = Props.saveUrl (props w) /\
  SaveBridge.values_source_block_ids (SaveBridge.ajax_data (SaveBridge.on_save params))
    = JSSet.to_array (selectedXblocks (state w)) /\
  (forall p evs,
      w = run evs (constructor p) ->
      existsb is_Unmount evs = false ->
      Props.saveUrl (props w) = Props.saveUrl p /\
      forall b, last_concerning b evs = Some true -> In b (source_block_ids params)).
Proof.
  intros params. do 4 (split; [reflexivity |]).
  intros p evs -> Hu. split; [now rewrite run_props |].
  intros b Hb. destruct (snapshot_spec p evs Hu) as [_ Hin].
  apply Hin. now rewrite Hb.
Qed.

Lemma save_hands_over_snapshot_witness :
  let p := {| Props.saveUrl := "/xblock/handler/submit_studio_edits";
              Props.selectedXblocks := ["block-7"] |} in
  let w := run [XblockSelected true "block-3"] (constructor p) in
  triggered (step SaveClick w) =
    [{| save_url := "/xblock/handler/submit_studio_edits";
        source_block_ids := ["block-7"; "block-3"] |}] /\
  In "block-3" ["block-7"; "block-3"].
Proof.
  intros p w.
  destruct (save_hands_over_snapshot w) as (Ht & _ & _ & _ & Hreached).
  split; [exact Ht |].
  destruct (Hreached p [XblockSelected true "block-3"] eq_refl eq_refl) as [_ Hin].
  exact (Hin "block-3" eq_refl).
Defined.

End Saving.

(** ** Unmounting *)
Section Unmounting.

Lemma unmount_libraries_waiting (n : nat) (w : World) (t : string) (lq : list string) :
  libraries_waiting n w t lq -> libraries_waiting n (step Unmount w) t lq.
Proof. intros H. exact H. Qed.

Lemma unmount_xblocks_waiting (n : nat) (w : World) (t : string)
  (bq : list (option string * string)) :
  xblocks_waiting n w t bq -> xblocks_waiting n (step Unmount w) t bq.
Proof. intros H. exact H. Qed.

Lemma waiting_libraries_timer (n : nat) (w : World) (t : string) (lq : list string) :
  libraries_waiting n w t lq ->
  option_map timer (debouncedFetchLibraries w) = Some (Some n).
Proof. intros (ev & -> & _). reflexivity. Qed.

Lemma waiting_xblocks_timer (n : nat) (w : World) (t : string)
  (bq : list (option string * string)) :
  xblocks_waiting n w t bq ->
  option_map timer (debouncedFetchXblocks w) = Some (Some n).
Proof. intros (ev & -> & _). reflexivity. Qed.

(** C9, as the component behaves.  The component has no unmount handler.  If
    it is unmounted while the debounce timer of a search field is waiting,
    the timer keeps waiting with the time it had left, and when that time has
    passed its callback runs and dispatches the query for the text of the
    field; this holds for the library field and for the block field. *)
Theorem unmount_keeps_timers (p : Props.t) (evs : list Event)
  (t : string) (d extra : nat) :
  d < wait ->
  let w := run evs (constructor p) in
  let wl := run [LibraryInputChange t; Elapse d; Unmount] w in
  let wx := run [XBlockInputChange t; Elapse d; Unmount] w in
  option_map timer (debouncedFetchLibraries wl) = Some (Some (wait - d)) /\
  library_queries (issued (step (Elapse (wait - d + extra)) wl))
    = library_queries (issued w) ++ [t] /\
  option_map timer (debouncedFetchXblocks wx) = Some (Some (wait - d)) /\
  block_queries (issued (step (Elapse (wait - d + extra)) wx))
    = block_queries (issued w) ++ [(selectedLibrary (state w), t)].
Proof.
  intros Hd w wl wx. destruct (run_bound p evs) as [Hl Hx]. fold w in Hl, Hx.
  assert (libraries_waiting (S (wait - d - 1)) wl t (library_queries (issued w))) as Hwl.
  { unfold wl. cbn [run fold_left]. apply unmount_libraries_waiting.
    cbn [step]. apply elapse_libraries_waiting.
    replace (d + S (wait - d - 1)) with wait by lia.
    now apply change_libraries_waiting. }
  destruct (change_xblocks_waiting t w Hx) as [Hc Hs].
  assert (xblocks_waiting (S (wait - d - 1)) wx t (block_queries (issued w))) as Hwx.
  { unfold wx. cbn [run fold_left]. apply unmount_xblocks_waiting.
    cbn [step]. apply elapse_xblocks_waiting.
    now replace (d + S (wait - d - 1)) with wait by lia. }
  assert (selectedLibrary (state wx) = selectedLibrary (state w)) as Hlib.
  { unfold wx. cbn [run fold_left]. now rewrite !step_selectedLibrary by reflexivity. }
  replace (wait - d) with (S (wait - d - 1)) by lia.
  split; [now apply (waiting_libraries_timer _ _ _ _ Hwl) |].
  split; [cbn [step]; apply (elapse_libraries_due _ _ _ _ _ Hwl); lia |].
  split; [now apply (waiting_xblocks_timer _ _ _ _ Hwx) |].
  cbn [step]. rewrite (elapse_xblocks_due _ _ _ _ _ Hwx) by lia.
  now rewrite Hlib.
Qed.

Lemma unmount_keeps_timers_witness :
  let w := run [] (constructor Props.defaultProps) in
  let wl := run [LibraryInputChange "algebra"; Elapse 120; Unmount] w in
  let wx := run [XBlockInputChange "algebra"; Elapse 120; Unmount] w in
  option_map timer (debouncedFetchLibraries wl) = Some (Some (wait - 120)) /\
  library_queries (issued (step (Elapse (wait - 120 + 0)) wl))
    = library_queries (issued w) ++ ["algebra"] /\
  option_map timer (debouncedFetchXblocks wx) = Some (Some (wait - 120)) /\
  block_queries (issued (step (Elapse (wait - 120 + 0)) wx))
    = block_queries (issued w) ++ [(selectedLibrary (state w), "algebra")].
Proof.
  apply (unmount_keeps_timers Props.defaultProps [] "algebra" 120 0).
  unfold wait. lia.
Defined.

(** C9 fails as stated.  The author types "algebra" into the library search
    and the component is unmounted at once: the timer is still waiting, and
    when the window has passed the query for "algebra" is dispatched. *)
Lemma unmount_clears_timers_counterexample :
  let w := run [LibraryInputChange "algebra"; Unmount] (constructor Props.defaultProps) in
  mounted w = false /\
  option_map timer (debouncedFetchLibraries w) = Some (Some 300) /\
  issued w = [ListLibraries ""] /\
  issued (step (Elapse 300) w) = [ListLibraries ""; ListLibraries "algebra"] /\
  ~ (forall evs, issued (run evs w) = issued w).
Proof.
  intros w.
  assert (issued (step (Elapse 300) w) = [ListLibraries ""; ListLibraries "algebra"])
    as Hfired by (vm_compute; reflexivity).
  do 3 (split; [reflexivity |]). split; [exact Hfired |].
  intros H. specialize (H [Elapse 300]). vm_compute in H. discriminate H.
Qed.

End Unmounting.

(** ** Construction *)
Section Construction.

(** C10.  Constructing the component issues exactly one request, the library
    query with the empty text filter; nothing is scheduled; and when the
    response to that request arrives, the library list is replaced by it. *)
Theorem constructor_loads_libraries (p : Props.t) :
  issued (constructor p) = [ListLibraries ""] /\
  url (ListLibraries "") = "/api/libraries/v2?text_search=" /\
  pending (constructor p) = [0] /\
  debouncedFetchLibraries (constructor p) = None /\
  debouncedFetchXblocks (constructor p) = None /\
  libraries (state (constructor p)) = [] /\
  forall response,
    libraries (state (step (LibrariesResponse 0 response) (constructor p))) = response.
Proof. repeat split. Qed.

End Construction.

(** ** Examples for the selection and the search *)
Section Examples.

Lemma selection_membership_witness :
  let p := {| Props.saveUrl := ""; Props.selectedXblocks := ["block-7"; "block-7"] |} in
  let evs := [XblockSelected true "A"; XblockSelected true "B"; LibrarySelected "L1";
              XblockSelected false "A"; XblockSelected true "A"; DeleteClick "block-7"] in
  let snapshot := JSSet.to_array (selectedXblocks (state (run evs (constructor p)))) in
  snapshot = ["B"; "A"] /\
  NoDup snapshot /\
  forall x, In x snapshot <->
    (last_concerning x evs = Some true \/
     (In x (Props.selectedXblocks p) /\ never_removed x evs)).
Proof.
  intros p evs. split; [reflexivity |].
  apply (selection_membership p evs). reflexivity.
Defined.

Lemma debounce_burst_witness :
  let w := run [] (constructor Props.defaultProps) in
  let rest := [(100, "al"); (299, "alg"); (50, "algebra")] in
  library_queries
    (issued (run (burst LibraryInputChange "a" rest ++ [Elapse (wait + 0)]) w))
  = library_queries (issued w) ++ [last_text "a" rest]
  /\
  block_queries
    (issued (run (burst XBlockInputChange "a" rest ++ [Elapse (wait + 0)]) w))
  = block_queries (issued w) ++ [(selectedLibrary (state w), last_text "a" rest)].
Proof.
  apply (debounce_burst Props.defaultProps [] "a"
           [(100, "al"); (299, "alg"); (50, "algebra")] 0).
  repeat (apply Forall_cons; [unfold wait; simpl; lia |]). apply Forall_nil.
Defined.

End Examples.

(** ** The fuel of the JSON parser *)
Section Parsing.
Import SaveBridge.

Ltac break_match H :=
  repeat match type of H with
    | context [match ?x with _ => _ end] => destruct x eqn:?; try discriminate H
    end.

Lemma skip_ws_length (l : jsstring) : List.length (skip_ws l) <= List.length l.
Proof.
  induction l as [| c l IH]; simpl; [lia |].
  destruct (is_ws c); simpl; lia.
Qed.

Lemma strip_prefix_length (prefix l r : jsstring) :
  strip_prefix prefix l = Some r -> List.length r + List.length prefix = List.length l.
Proof.
  revert l. induction prefix as [| p prefix IH]; intros l H; simpl in H.
  - injection H as <-. simpl. lia.
  - destruct l as [| c l]; [discriminate |].
    destruct (p =? c)%N; [| discriminate]. apply IH in H. simpl. lia.
Qed.

Lemma cons_char_Some (c : N) (o : option (jsstring * jsstring)) (s r : jsstring) :
  cons_char c o = Some (s, r) -> exists s', o = Some (s', r).
Proof.
  destruct o as [[s' r'] |]; simpl; [| discriminate].
  intros [= <- <-]. now exists s'.
Qed.

Lemma parse_chars_length (n : nat) :
  forall l s r, List.length l <= n -> parse_chars l = Some (s, r) ->
                List.length r < List.length l.
Proof.
  induction n as [| n IH]; intros l s r Hn H.
  - destruct l; [discriminate | simpl in Hn; lia].
  - destruct l as [| c rest]; [discriminate |]. simpl in Hn. simpl in H.
    break_match H; subst;
      try (injection H as <- <-; simpl; lia);
      apply cons_char_Some in H as [s' H]; apply IH in H; simpl in *; lia.
Qed.

Lemma span_digits_length (l ds r : jsstring) :
  span_digits l = (ds, r) -> List.length r <= List.length l.
Proof.
  revert ds r. induction l as [| c l IH]; simpl; intros ds r H.
  - injection H as <- <-. simpl. lia.
  - destruct (is_digit c).
    + destruct (span_digits l) as [ds' r'] eqn:E. injection H as <- <-.
      specialize (IH ds' r' eq_refl). lia.
    + injection H as <- <-. simpl. lia.
Qed.

Lemma parse_minus_length (l m r : jsstring) :
  parse_minus l = (m, r) -> List.length r <= List.length l.
Proof.
  unfold parse_minus. intros H. break_match H; injection H as <- <-; simpl; lia.
Qed.

Lemma parse_sign_length (l m r : jsstring) :
  parse_sign l = (m, r) -> List.length r <= List.length l.
Proof.
  unfold parse_sign. intros H. break_match H; injection H as <- <-; simpl; lia.
Qed.

Lemma parse_int_length (l i r : jsstring) :
  parse_int l = Some (i, r) -> List.length r < List.length l.
Proof.
  unfold parse_int. intros H. destruct l as [| c rest]; [discriminate |].
  destruct (c =? 48)%N; [injection H as <- <-; simpl; lia |].
  destruct (is_digit c); [| discriminate].
  destruct (span_digits rest) as [ds r'] eqn:E. injection H as <- <-.
  apply span_digits_length in E. simpl. lia.
Qed.

Lemma parse_frac_length (l f r : jsstring) :
  parse_frac l = Some (f, r) -> List.length r <= List.length l.
Proof.
  unfold parse_frac. intros H. destruct l as [| c rest]; [injection H as <- <-; lia |].
  destruct (c =? 46)%N; [| injection H as <- <-; lia].
  destruct (span_digits rest) as [ds r'] eqn:E. apply span_digits_length in E.
  destruct ds; [discriminate |]. injection H as <- <-. simpl. lia.
Qed.

Lemma parse_exp_length (l e r : jsstring) :
  parse_exp l = Some (e, r) -> List.length r <= List.length l.
Proof.
  unfold parse_exp. intros H. destruct l as [| c rest]; [injection H as <- <-; lia |].
  destruct ((c =? 101) || (c =? 69))%N; [| injection H as <- <-; lia].
  destruct (parse_sign rest) as [sign r1] eqn:Es. apply parse_sign_length in Es.
  destruct (span_digits r1) as [ds r2] eqn:E. apply span_digits_length in E.
  destruct ds; [discriminate |]. injection H as <- <-. simpl. lia.
Qed.

Lemma parse_number_length (l lexeme r : jsstring) :
  parse_number l = Some (lexeme, r) -> List.length r < List.length l.
Proof.
  unfold parse_number. intros H.
  destruct (parse_minus l) as [m r0] eqn:Em. apply parse_minus_length in Em.
  destruct (parse_int r0) as [[i r1] |] eqn:Ei; [| discriminate].
  apply parse_int_length in Ei.
  destruct (parse_frac r1) as [[f r2] |] eqn:Ef; [| discriminate].
  apply parse_frac_length in Ef.
  destruct (parse_exp r2) as [[e r3] |] eqn:Ee; [| discriminate].
  apply parse_exp_length in Ee. injection H as <- <-. lia.
Qed.

Ltac note_skip_ws :=
  repeat match goal with
    | _ : context [skip_ws ?x] |- _ =>
        lazymatch goal with
        | _ : List.length (skip_ws x) <= List.length x |- _ => fail
        | _ => pose proof (skip_ws_length x)
        end
    end.

Ltac note_lengths IHv IHe IHm :=
  repeat match goal with
    | E : strip_prefix _ _ = Some _ |- _ => apply strip_prefix_length in E
    | E : parse_chars _ = Some _ |- _ => apply (parse_chars_length _ _ _ _ (le_n _)) in E
    | E : parse_number _ = Some _ |- _ => apply parse_number_length in E
    | E : parse_value _ _ = Parsed _ _ |- _ => apply IHv in E
    | E : parse_elements _ _ = Parsed _ _ |- _ => apply IHe in E
    | E : parse_members _ _ = Parsed _ _ |- _ => apply IHm in E
    end;
  note_skip_ws;
  repeat match goal with
    | E : skip_ws _ = _ |- _ => apply (f_equal (@List.length N)) in E
    end.

Lemma parse_progress (fuel : nat) :
  (forall l v r, parse_value fuel l = Parsed v r -> List.length r < List.length l) /\
  (forall l vs r, parse_elements fuel l = Parsed vs r -> List.length r < List.length l) /\
  (forall l ms r, parse_members fuel l = Parsed ms r -> List.length r < List.length l).
Proof.
  induction fuel as [| fuel (IHv & IHe & IHm)];
    [repeat split; intros; discriminate |].
  split; [| split].
  - intros l v r H. cbn [parse_value] in H.
    break_match H; subst; injection H as <- <-;
      note_lengths IHv IHe IHm; simpl in *; lia.
  - intros l vs r H. cbn [parse_elements] in H.
    break_match H; subst; injection H as <- <-;
      note_lengths IHv IHe IHm; simpl in *; lia.
  - intros l ms r H. cbn [parse_members] in H.
    break_match H; subst; injection H as <- <-;
      note_lengths IHv IHe IHm; simpl in *; lia.
Qed.

(** With two units of fuel for each code unit the parser never stops for
    lack of fuel. *)
Lemma parse_fuel (fuel : nat) :
  (forall l, 2 * List.length l + 1 <= fuel -> parse_value fuel l <> OutOfFuel) /\
  (forall l, 2 * List.length l + 2 <= fuel -> parse_elements fuel l <> OutOfFuel) /\
  (forall l, 2 * List.length l + 2 <= fuel -> parse_members fuel l <> OutOfFuel).
Proof.
  induction fuel as [| fuel (IHv & IHe & IHm)];
    [repeat split; intros; lia |].
  destruct (parse_progress fuel) as (Pv & Pe & Pm).
  split; [| split].
  - intros l Hf H. cbn [parse_value] in H.
    break_match H; subst; try discriminate H; clear H.
    all: note_lengths Pv Pe Pm; simpl in *.
    all: match goal with
         | E : parse_elements _ ?x = OutOfFuel |- _ => apply (IHe x); [lia | exact E]
         | E : parse_members _ ?x = OutOfFuel |- _ => apply (IHm x); [lia | exact E]
         end.
  - intros l Hf H. cbn [parse_elements] in H.
    break_match H; subst; try discriminate H; clear H.
    all: note_lengths Pv Pe Pm; simpl in *.
    all: match goal with
         | E : parse_elements _ ?x = OutOfFuel |- _ => apply (IHe x); [lia | exact E]
         | E : parse_value _ ?x = OutOfFuel |- _ => apply (IHv x); [lia | exact E]
         end.
  - intros l Hf H. cbn [parse_members] in H.
    break_match H; subst; try discriminate H; clear H.
    all: note_lengths Pv Pe Pm; simpl in *.
    all: match goal with
         | E : parse_members _ ?x = OutOfFuel |- _ => apply (IHm x); [lia | exact E]
         | E : parse_value _ ?x = OutOfFuel |- _ => apply (IHv x); [lia | exact E]
         end.
Qed.

Theorem JSON_parse_fuel (text : jsstring) :
  parse_value (2 * List.length text + 2) (skip_ws text) <> OutOfFuel.
Proof.
  destruct (parse_fuel (2 * List.length text + 2)) as (Hv & _).
  apply Hv. pose proof (skip_ws_length text). lia.
Qed.

End Parsing.

(** ** The message shown when saving fails *)
Section FailMessage.
Import SaveBridge.

Variable gettext : jsstring -> jsstring.
Variable number_truthy : jsstring -> bool.
Variable number_toString : jsstring -> jsstring.
Variable object_elems : list (jsstring * JSValue) -> list JSValue.

Local Abbreviation message := (fail_message gettext number_truthy number_toString object_elems).
Local Abbreviation body_of_try := (try_block number_truthy number_toString object_elems).

Lemma fail_message_body (text : jsstring) :
  text <> [] ->
  message (Some text) =
    match body_of_try text with
    | Normal m => m
    | Throw => JString (firstn 300 text)
    end.
Proof. destruct text; [congruence | reflexivity]. Qed.


Lemma flatten_strings (texts : list jsstring) :
  flatten (map JString texts) = map JString texts.
Proof.
  unfold flatten. induction texts as [| t texts IH]; [reflexivity |].
  simpl. now rewrite IH.
Qed.

Lemma join_strings (separator : jsstring) (texts : list jsstring) :
  join number_toString separator (map JString texts)
  = Normal (separated_by separator texts).
Proof.
  induction texts as [| t texts IH]; [reflexivity |].
  cbn [map join separated_by ToString bind].
  destruct texts as [| t' texts]; [reflexivity |].
  cbn [map] in *. rewrite IH. reflexivity.
Qed.


End FailMessage.

Section FailMessageExamples.
Import SaveBridge.


End FailMessageExamples.

(** * Further properties of the component *)

(** ** When a debounced query goes out *)
Section DebounceTiming.

(** X1. A text change sends nothing at once: the query for the text goes out
    when a full window has passed without another change, and not before.
    For the block field the query names the library selected at that time. *)
Theorem debounce_fires_after_wait (p : Props.t) (evs : list Event) (t : string) (d : nat) :
  let w := run evs (constructor p) in
  library_queries (issued (run [LibraryInputChange t; Elapse d] w))
  = library_queries (issued w) ++ (if d <? wait then [] else [t])
  /\
  block_queries (issued (run [XBlockInputChange t; Elapse d] w))
  = block_queries (issued w)
      ++ (if d <? wait then [] else [(selectedLibrary (state w), t)]).
Proof.
  intros w. destruct (run_bound p evs) as [Hl Hx]. fold w in Hl, Hx.
  cbn [run fold_left]. cbn [step].
  pose proof (change_libraries_waiting t w Hl) as Hcl.
  destruct (change_xblocks_waiting t w Hx) as [Hcx Hs].
  cbn [step] in Hcl, Hcx, Hs.
  destruct (Nat.ltb_spec d wait) as [Hd | Hd].
  - rewrite !app_nil_r. split.
    + assert (libraries_waiting (S (wait - d - 1)) (elapse d _) t
                (library_queries (issued w))) as (_ & _ & _ & _ & H)
        by (apply elapse_libraries_waiting;
            replace (d + S (wait - d - 1)) with wait by lia; exact Hcl).
      exact H.
    + assert (xblocks_waiting (S (wait - d - 1)) (elapse d _) t
                (block_queries (issued w))) as (_ & _ & _ & _ & H)
        by (apply elapse_xblocks_waiting;
            replace (d + S (wait - d - 1)) with wait by lia; exact Hcx).
      exact H.
  - split.
    + apply (elapse_libraries_due (wait - 1)); [exact Hcl | unfold wait in *; lia].
    + rewrite <- Hs.
      apply (elapse_xblocks_due (wait - 1)); [exact Hcx | unfold wait in *; lia].
Qed.

Lemma change_libraries_keeps_xblocks (n : nat) (w : World) (t tl : string)
  (bq : list (option string * string)) :
  xblocks_waiting n w t bq ->
  xblocks_waiting n (step (LibraryInputChange tl) w) t bq /\
  selectedLibrary (state (step (LibraryInputChange tl) w)) = selectedLibrary (state w).
Proof.
  intros (ev & Hd & Ht & Hv & Hq).
  unfold xblocks_waiting, step, onLibraryInputChange, setState. simpl.
  destruct (mounted w); simpl;
    (destruct (debouncedFetchLibraries w); simpl;
     (split; [exists ev; repeat split; assumption | reflexivity])).
Qed.

Lemma change_xblocks_keeps_libraries (n : nat) (w : World) (t tx : string)
  (lq : list string) :
  libraries_waiting n w t lq ->
  libraries_waiting n (step (XBlockInputChange tx) w) t lq.
Proof.
  intros (ev & Hd & Ht & Hv & Hq).
  unfold libraries_waiting, step, onXBlockInputChange, setState. simpl.
  destruct (mounted w); simpl;
    (destruct (debouncedFetchXblocks w); simpl;
     exists ev; repeat split; assumption).
Qed.

(** X2. The two search fields have timers of their own.  A change in one field
    while the other is waiting neither delays nor cancels the other's query:
    it goes out when its own window has passed, while the field just changed
    has sent nothing yet. *)
Theorem search_fields_independent (p : Props.t) (evs : list Event)
  (tx tl : string) (d : nat) :
  0 < d -> d < wait ->
  let w := run evs (constructor p) in
  let wx := run [XBlockInputChange tx; Elapse d] w in
  let wl := run [LibraryInputChange tl; Elapse d] w in
  (block_queries (issued (run [LibraryInputChange tl; Elapse (wait - d)] wx))
   = block_queries (issued w) ++ [(selectedLibrary (state w), tx)] /\
   library_queries (issued (run [LibraryInputChange tl; Elapse (wait - d)] wx))
   = library_queries (issued wx))
  /\
  (library_queries (issued (run [XBlockInputChange tx; Elapse (wait - d)] wl))
   = library_queries (issued w) ++ [tl] /\
   block_queries (issued (run [XBlockInputChange tx; Elapse (wait - d)] wl))
   = block_queries (issued wl)).
Proof.
  intros Hd0 Hd w wx wl. destruct (run_bound p evs) as [Hl Hx]. fold w in Hl, Hx.
  destruct (change_xblocks_waiting tx w Hx) as [Hcx Hs].
  pose proof (change_libraries_waiting tl w Hl) as Hcl.
  assert (xblocks_waiting (S (wait - d - 1)) wx tx (block_queries (issued w))) as Hwx.
  { unfold wx. cbn [run fold_left]. cbn [step]. apply elapse_xblocks_waiting.
    replace (d + S (wait - d - 1)) with wait by lia. exact Hcx. }
  assert (libraries_waiting (S (wait - d - 1)) wl tl (library_queries (issued w))) as Hwl.
  { unfold wl. cbn [run fold_left]. cbn [step]. apply elapse_libraries_waiting.
    replace (d + S (wait - d - 1)) with wait by lia. exact Hcl. }
  assert (selectedLibrary (state wx) = selectedLibrary (state w)) as Hsx.
  { unfold wx. cbn [run fold_left]. now rewrite !step_selectedLibrary by reflexivity. }
  destruct (run_bound p (evs ++ [XBlockInputChange tx; Elapse d])) as [Hlx _].
  rewrite run_app in Hlx. fold w in Hlx. fold wx in Hlx.
  destruct (run_bound p (evs ++ [LibraryInputChange tl; Elapse d])) as [_ Hxl].
  rewrite run_app in Hxl. fold w in Hxl. fold wl in Hxl.
  split; split; cbn [run fold_left]; cbn [step].
  - destruct (change_libraries_keeps_xblocks _ _ _ tl _ Hwx) as [Hk Hsel].
    cbn [step] in Hk, Hsel.
    rewrite (elapse_xblocks_due (wait - d - 1) _ _ tx _ Hk) by lia.
    now rewrite Hsel, Hsx.
  - pose proof (change_libraries_waiting tl wx Hlx) as Hc. cbn [step] in Hc.
    assert (libraries_waiting (S (d - 1)) (elapse (wait - d) _) tl
              (library_queries (issued wx))) as (_ & _ & _ & _ & H)
      by (apply elapse_libraries_waiting;
          replace (wait - d + S (d - 1)) with wait by lia; exact Hc).
    exact H.
  - pose proof (change_xblocks_keeps_libraries _ _ _ tx _ Hwl) as Hk.
    cbn [step] in Hk.
    apply (elapse_libraries_due (wait - d - 1) _ _ tl _ Hk). lia.
  - destruct (change_xblocks_waiting tx wl Hxl) as [Hc _]. cbn [step] in Hc.
    assert (xblocks_waiting (S (d - 1)) (elapse (wait - d) _) tx
              (block_queries (issued wl))) as (_ & _ & _ & _ & H)
      by (apply elapse_xblocks_waiting;
          replace (wait - d + S (d - 1)) with wait by lia; exact Hc).
    exact H.
Qed.

Lemma search_fields_independent_witness :
  let w := run [] (constructor Props.defaultProps) in
  let wx := run [XBlockInputChange "quiz"; Elapse 100] w in
  let wl := run [LibraryInputChange "algebra"; Elapse 100] w in
  (block_queries (issued (run [LibraryInputChange "algebra"; Elapse (wait - 100)] wx))
   = block_queries (issued w) ++ [(selectedLibrary (state w), "quiz")] /\
   library_queries (issued (run [LibraryInputChange "algebra"; Elapse (wait - 100)] wx))
   = library_queries (issued wx))
  /\
  (library_queries (issued (run [XBlockInputChange "quiz"; Elapse (wait - 100)] wl))
   = library_queries (issued w) ++ ["algebra"] /\
   block_queries (issued (run [XBlockInputChange "quiz"; Elapse (wait - 100)] wl))
   = block_queries (issued wl)).
Proof.
  apply (search_fields_independent Props.defaultProps [] "quiz" "algebra" 100);
    unfold wait; lia.
Defined.

End DebounceTiming.

(** ** The order of the selection *)
Section SelectionOrder.

Lemma run_selection_NoDup_mounted (p : Props.t) (evs : list Event) :
  existsb is_Unmount evs = false ->
  mounted (run evs (constructor p)) = true /\
  NoDup (selectedXblocks (state (run evs (constructor p)))).
Proof.
  intros Hu. split.
  - rewrite run_mounted by exact Hu. reflexivity.
  - now destruct (snapshot_spec p evs Hu).
Qed.

Lemma filter_absent (v : string) (l : list string) :
  ~ In v l -> filter (fun y => negb (String.eqb v y)) l = l.
Proof.
  induction l as [| a l IH]; intros Hn; [reflexivity |].
  simpl in *. destruct (String.eqb_spec v a) as [-> | Hne]; [tauto |].
  simpl. rewrite IH; tauto.
Qed.

(** X3. Checking a box appends its identifier to the snapshot when it is not
    selected yet, and changes nothing, not even the order, when it is. *)
Theorem toggle_on_appends (p : Props.t) (evs : list Event) (v : string) :
  existsb is_Unmount evs = false ->
  let w := run evs (constructor p) in
  let before := JSSet.to_array (selectedXblocks (state w)) in
  let after := JSSet.to_array (selectedXblocks (state (step (XblockSelected true v) w))) in
  (In v before -> after = before) /\
  (~ In v before -> after = before ++ [v]).
Proof.
  intros Hu w before after.
  destruct (run_selection_NoDup_mounted p evs Hu) as [Hm Hnd]. fold w in Hm, Hnd.
  unfold after, before, JSSet.to_array.
  rewrite step_selection by exact Hm. cbn [selection_op].
  rewrite of_iterable_copy by exact Hnd.
  unfold JSSet.add. destruct (JSSet.has (selectedXblocks (state w)) v) eqn:E.
  - apply has_In in E. tauto.
  - assert (~ In v (selectedXblocks (state w))) by (rewrite <- has_In; congruence).
    tauto.
Qed.

Lemma toggle_on_appends_witness :
  let p := {| Props.saveUrl := ""; Props.selectedXblocks := ["block-7"] |} in
  let w := run [XblockSelected true "block-3"] (constructor p) in
  JSSet.to_array (selectedXblocks (state (step (XblockSelected true "block-7") w)))
    = ["block-7"; "block-3"] /\
  JSSet.to_array (selectedXblocks (state (step (XblockSelected true "block-9") w)))
    = ["block-7"; "block-3"; "block-9"].
Proof.
  intros p w. split.
  - apply (toggle_on_appends p [XblockSelected true "block-3"] "block-7" eq_refl).
    simpl. tauto.
  - apply (toggle_on_appends p [XblockSelected true "block-3"] "block-9" eq_refl).
    simpl. intros [H | [H | []]]; discriminate H.
Defined.

(** X4. Unchecking a box and clicking the delete button of a row do the same
    thing: the identifier leaves the snapshot, the others keep their order,
    and nothing changes when the identifier was not selected. *)
Theorem uncheck_and_delete_remove (p : Props.t) (evs : list Event) (v : string) :
  existsb is_Unmount evs = false ->
  let w := run evs (constructor p) in
  let before := JSSet.to_array (selectedXblocks (state w)) in
  let after := JSSet.to_array (selectedXblocks (state (step (DeleteClick v) w))) in
  step (XblockSelected false v) w = step (DeleteClick v) w /\
  (forall l1 l2, before = l1 ++ v :: l2 -> after = l1 ++ l2) /\
  (~ In v before -> after = before).
Proof.
  intros Hu w before after.
  destruct (run_selection_NoDup_mounted p evs Hu) as [Hm Hnd]. fold w in Hm, Hnd.
  split; [reflexivity |].
  assert (after = filter (fun y => negb (String.eqb v y)) before) as ->.
  { unfold after, before, JSSet.to_array.
    rewrite step_selection by exact Hm. cbn [selection_op].
    now rewrite of_iterable_copy by exact Hnd. }
  split.
  - intros l1 l2 Hsplit. unfold before, JSSet.to_array in *.
    rewrite Hsplit in *. apply NoDup_remove_2 in Hnd.
    rewrite filter_app. simpl. rewrite String.eqb_refl. simpl.
    rewrite !filter_absent; [reflexivity | |];
      intros Hin; apply Hnd; rewrite in_app_iff; tauto.
  - apply filter_absent.
Qed.

Lemma uncheck_and_delete_remove_witness :
  let p := {| Props.saveUrl := ""; Props.selectedXblocks := ["a"; "b"; "c"] |} in
  let w := run [] (constructor p) in
  JSSet.to_array (selectedXblocks (state (step (DeleteClick "b") w))) = ["a"] ++ ["c"] /\
  JSSet.to_array (selectedXblocks (state (step (DeleteClick "z") w))) = ["a"; "b"; "c"].
Proof.
  intros p w.
  destruct (uncheck_and_delete_remove p [] "b" eq_refl) as (_ & Hb & _).
  destruct (uncheck_and_delete_remove p [] "z" eq_refl) as (_ & _ & Hz).
  split.
  - apply (Hb ["a"] ["c"]). reflexivity.
  - apply Hz. simpl. intros [H | [H | [H | []]]]; discriminate H.
Defined.

(** X5. Only a checkbox toggle or a delete click changes the selection: whatever
    else happens (typing, selecting a library, time passing, responses,
    saving, unmounting), in whatever state, it stays as it was. *)
Theorem selection_changed_only_by_toggles (w : World) (e : Event) :
  selection_op e = None ->
  selectedXblocks (state (step e w)) = selectedXblocks (state w).
Proof.
  destruct e; intros H; try discriminate H;
    try (unfold_handlers; simpl; split_cases; congruence).
  cbn [step]. now destruct (elapse_frame d w) as (_ & _ & -> & _).
Qed.

Lemma selection_changed_only_by_toggles_witness :
  let w := run [XblockSelected true "block-3"] (constructor Props.defaultProps) in
  selectedXblocks (state (step (LibrarySelected "lib:edX:maths") w))
  = selectedXblocks (state w).
Proof.
  intros w.
  apply (selection_changed_only_by_toggles w (LibrarySelected "lib:edX:maths")).
  reflexivity.
Defined.

(** X6. When the identifiers given in the props are distinct, the snapshot before
    any event is that list, in that order. *)
Theorem initial_snapshot (p : Props.t) :
  NoDup (Props.selectedXblocks p) ->
  JSSet.to_array (selectedXblocks (state (constructor p))) = Props.selectedXblocks p.
Proof.
  intros H. rewrite constructor_selection. now apply of_iterable_copy.
Qed.

Lemma initial_snapshot_witness :
  JSSet.to_array
    (selectedXblocks
       (state (constructor {| Props.saveUrl := ""; Props.selectedXblocks := ["block-7"] |})))
  = ["block-7"].
Proof.
  apply (initial_snapshot {| Props.saveUrl := ""; Props.selectedXblocks := ["block-7"] |}).
  simpl. repeat constructor. intros [].
Defined.

End SelectionOrder.

(** ** Requests over a history *)
Section RequestHistory.

(** X7. Of the events, only the selection of a library sends a request when it
    happens; the only other requests are those of the debounce timers.
    Typing, toggling, deleting, saving, a response, a failed request and
    unmounting send none. *)
Theorem only_selection_sends_at_once (w : World) (e : Event) :
  is_LibrarySelected e = false ->
  is_Elapse e = false ->
  issued (step e w) = issued w.
Proof.
  destruct e; intros H1 H2; try discriminate H1; try discriminate H2;
    unfold_handlers; simpl; split_cases; congruence.
Qed.

Lemma only_selection_sends_at_once_witness :
  let w := run [LibrarySelected "L1"] (constructor Props.defaultProps) in
  issued (step (XBlockInputChange "quiz") w) = issued w.
Proof.
  intros w. apply (only_selection_sends_at_once w (XBlockInputChange "quiz")); reflexivity.
Defined.

(** A response to a pending library request is stored as the library list. *)
Lemma on_libraries_stores (rid : nat) (response : list Library) (w : World)
  (text_search : string) :
  mounted w = true ->
  is_pending rid w = true ->
  nth_error (issued w) rid = Some (ListLibraries text_search) ->
  state (on_libraries rid response w) = with_libraries response (state w) /\
  mounted (on_libraries rid response w) = true /\
  issued (on_libraries rid response w) = issued w /\
  forall i, i <> rid -> is_pending i (on_libraries rid response w) = is_pending i w.
Proof.
  intros Hm Hp Hn. unfold on_libraries. rewrite Hp, Hn.
  unfold setState, settle. simpl. rewrite Hm. simpl.
  do 3 (split; [now rewrite ?Hm |]).
  intros i Hi. unfold is_pending. simpl.
  induction (pending w) as [| a l IH]; [reflexivity |].
  simpl. destruct (Nat.eqb_spec a rid) as [-> | Hne]; simpl.
  - rewrite IH. destruct (Nat.eqb_spec i rid); [contradiction | reflexivity].
  - now rewrite IH.
Qed.

(** X8. [fetchLibraries] has no sequencing either: of two pending library
    requests, issued in either order, the library list ends up holding the
    response that arrived last, and the block list is not touched. *)
Theorem libraries_last_completed (w : World) (i j : nat) (ti tj : string)
  (ri rj : list Library) :
  mounted w = true ->
  i <> j ->
  is_pending i w = true ->
  is_pending j w = true ->
  nth_error (issued w) i = Some (ListLibraries ti) ->
  nth_error (issued w) j = Some (ListLibraries tj) ->
  let w' := run [LibrariesResponse i ri; LibrariesResponse j rj] w in
  libraries (state w') = rj /\ xblocks (state w') = xblocks (state w).
Proof.
  intros Hm Hij Hpi Hpj Hni Hnj w'. unfold w'. cbn [run fold_left step].
  destruct (on_libraries_stores i ri w ti Hm Hpi Hni) as (Hs & Hm' & Hi' & Hp').
  destruct (on_libraries_stores j rj (on_libraries i ri w) tj)
    as (-> & _); [exact Hm' | | | rewrite Hs; split; reflexivity].
  - rewrite Hp' by congruence. exact Hpj.
  - now rewrite Hi'.
Qed.

Lemma libraries_last_completed_witness :
  let w := run [LibraryInputChange "alg"; Elapse 300] (constructor Props.defaultProps) in
  let first := [{| lib_id := "lib:edX:all"; title := "Everything" |}] in
  let second := [{| lib_id := "lib:edX:algebra"; title := "Algebra" |}] in
  let w' := run [LibrariesResponse 1 second; LibrariesResponse 0 first] w in
  libraries (state w') = first /\ xblocks (state w') = xblocks (state w).
Proof.
  intros w first second.
  apply (libraries_last_completed w 1 0 "alg" "" second first);
    [vm_compute; reflexivity | lia | vm_compute; reflexivity | vm_compute; reflexivity
    | vm_compute; reflexivity | vm_compute; reflexivity].
Defined.

Lemma last_library_selected_snoc (evs : list Event) (e : Event) :
  last_library_selected (evs ++ [e]) =
    match e with
    | LibrarySelected v => Some v
    | _ => last_library_selected evs
    end.
Proof. unfold last_library_selected. rewrite fold_left_app. reflexivity. Qed.

(** X9. On a mounted component [selectedLibrary] is the library of the last
    selection, and undefined when there was none. *)
Theorem selected_library_is_last_selected (p : Props.t) (evs : list Event) :
  existsb is_Unmount evs = false ->
  selectedLibrary (state (run evs (constructor p))) = last_library_selected evs.
Proof.
  induction evs as [| e evs IH] using rev_ind; intros Hu; [reflexivity |].
  rewrite existsb_app in Hu. simpl in Hu. rewrite orb_false_r in Hu.
  apply orb_false_iff in Hu as [Hu He].
  rewrite run_snoc, last_library_selected_snoc.
  destruct (is_LibrarySelected e) eqn:Hsel.
  - destruct e; try discriminate Hsel.
    unfold step, onLibrarySelected, setState.
    rewrite run_mounted by exact Hu. reflexivity.
  - rewrite step_selectedLibrary by exact Hsel. rewrite IH by exact Hu.
    destruct e; try reflexivity. discriminate Hsel.
Qed.

Lemma selected_library_is_last_selected_witness :
  selectedLibrary
    (state (run [LibrarySelected "L1"; XBlockInputChange "quiz"; LibrarySelected "L2";
                 Elapse 300; SaveClick] (constructor Props.defaultProps)))
  = Some "L2".
Proof.
  apply (selected_library_is_last_selected Props.defaultProps
           [LibrarySelected "L1"; XBlockInputChange "quiz"; LibrarySelected "L2";
            Elapse 300; SaveClick]).
  reflexivity.
Defined.

Lemma step_block_queries_without_typing (e : Event) (w : World) :
  is_XBlockInputChange e = false ->
  debouncedFetchXblocks w = None ->
  debouncedFetchXblocks (step e w) = None /\
  block_queries (issued (step e w)) =
    block_queries (issued w)
      ++ match e with LibrarySelected v => [(Some v, "")] | _ => [] end.
Proof.
  intros Hx Hd. destruct (is_LibrarySelected e) eqn:Hsel.
  - destruct e; try discriminate Hsel.
    unfold step, onLibrarySelected, fetchXblocks, fetch, setState. simpl.
    rewrite block_queries_app.
    destruct (mounted w); simpl; split; (exact Hd || reflexivity).
  - destruct (step_no_block_query e w Hsel Hx Hd) as [-> ->].
    split; [reflexivity |]. destruct e; try discriminate Hsel; now rewrite app_nil_r.
Qed.

(** X10. As long as nothing is typed into the block search, the block queries are
    exactly one unfiltered query per library selection, in the order of the
    selections; selecting the same library again sends its query again. *)
Theorem block_queries_without_typing (p : Props.t) (evs : list Event) :
  existsb is_XBlockInputChange evs = false ->
  block_queries (issued (run evs (constructor p)))
  = map (fun l => (Some l, "")) (libraries_selected evs).
Proof.
  intros Hx.
  assert (debouncedFetchXblocks (run evs (constructor p)) = None /\
          block_queries (issued (run evs (constructor p)))
          = map (fun l => (Some l, "")) (libraries_selected evs)) as [_ H];
    [| exact H].
  induction evs as [| e evs IH] using rev_ind; [split; reflexivity |].
  rewrite existsb_app in Hx. simpl in Hx. rewrite orb_false_r in Hx.
  apply orb_false_iff in Hx as [Hx He].
  destruct (IH Hx) as [Hd Hq]. rewrite run_snoc.
  destruct (step_block_queries_without_typing e _ He Hd) as [-> ->].
  split; [reflexivity |].
  unfold libraries_selected in *. rewrite flat_map_app, map_app, Hq. simpl.
  rewrite app_nil_r. destruct e; reflexivity.
Qed.

Lemma block_queries_without_typing_witness :
  block_queries
    (issued (run [LibrarySelected "L1"; LibraryInputChange "alg"; Elapse 300;
                  LibrarySelected "L1"; LibrarySelected "L2"]
               (constructor Props.defaultProps)))
  = [(Some "L1", ""); (Some "L1", ""); (Some "L2", "")].
Proof.
  apply (block_queries_without_typing Props.defaultProps
           [LibrarySelected "L1"; LibraryInputChange "alg"; Elapse 300;
            LibrarySelected "L1"; LibrarySelected "L2"]).
  reflexivity.
Defined.

End RequestHistory.

(** ** Saving over a history *)
Section SaveHistory.

Lemma step_unmounted_state (e : Event) (w : World) :
  mounted w = false -> state (step e w) = state w.
Proof.
  intros Hm.
  destruct e; try (unfold_handlers; simpl; rewrite ?Hm; simpl; split_cases; congruence).
  cbn [step]. now destruct (elapse_frame d w) as (_ & _ & -> & _).
Qed.

(** The selection never holds an identifier twice, mounted or not. *)
Lemma run_selection_NoDup (p : Props.t) (evs : list Event) :
  NoDup (selectedXblocks (state (run evs (constructor p)))).
Proof.
  induction evs as [| e evs IH] using rev_ind.
  - change (run [] (constructor p)) with (constructor p).
    rewrite constructor_selection. apply of_iterable_NoDup.
  - rewrite run_snoc. destruct (mounted (run evs (constructor p))) eqn:Hm.
    + rewrite step_selection by exact Hm. rewrite of_iterable_copy by exact IH.
      destruct (selection_op e) as [[v [|]] |];
        [now apply add_NoDup | now apply delete_NoDup | exact IH].
    + now rewrite step_unmounted_state.
Qed.

Lemma step_triggered (e : Event) (w : World) :
  triggered (step e w) =
    triggered w
      ++ match e with
         | SaveClick =>
             [{| save_url := Props.saveUrl (props w);
                 source_block_ids := JSSet.to_array (selectedXblocks (state w)) |}]
         | _ => []
         end.
Proof.
  destruct e; try (unfold_handlers; simpl; split_cases; now rewrite app_nil_r).
  - reflexivity.
  - cbn [step]. destruct (elapse_frame d w) as (_ & _ & _ & _ & ->).
    now rewrite app_nil_r.
Qed.

(** X11. Every 'save' event the component ever triggers carries the save URL of
    its props and a list of identifiers without repetition, whatever the
    events before it. *)
Theorem saves_carry_url_and_distinct_ids (p : Props.t) (evs : list Event) :
  Forall (fun params => save_url params = Props.saveUrl p /\
                        NoDup (source_block_ids params))
    (triggered (run evs (constructor p))).
Proof.
  induction evs as [| e evs IH] using rev_ind; [constructor |].
  rewrite run_snoc, step_triggered. apply Forall_app. split; [exact IH |].
  destruct e; try constructor; [| constructor].
  simpl. split; [now rewrite run_props | apply run_selection_NoDup].
Qed.

End SaveHistory.

(** ** What the author sees *)
Section Rendering.
Import View.

Lemma query_Element {A} (q : Node -> list A) (tag : string) (key : option string)
  (props : list (string * PropValue)) (children : list Node) :
  flat_map q (nodes (Element tag key props children))
  = q (Element tag key props children)
      ++ flat_map (fun c => flat_map q (nodes c)) children.
Proof.
  cbn [nodes flat_map]. f_equal.
  induction children as [| c cs IH]; [reflexivity |].
  cbn [flat_map]. now rewrite flat_map_app, IH.
Qed.

Lemma query_Text {A} (q : Node -> list A) (s : string) :
  flat_map q (nodes (Text s)) = q (Text s).
Proof. cbn [nodes flat_map]. apply app_nil_r. Qed.

Lemma query_children {A B} (q : Node -> list B) (f : A -> Node) (g : A -> list B)
  (l : list A) :
  (forall a, flat_map q (nodes (f a)) = g a) ->
  flat_map (fun c => flat_map q (nodes c)) (map f l) = flat_map g l.
Proof.
  intros H. induction l as [| a l IH]; [reflexivity |].
  simpl. now rewrite H, IH.
Qed.

Lemma flat_map_singleton {A B} (f : A -> B) (l : list A) :
  flat_map (fun a => [f a]) l = map f l.
Proof. induction l as [| a l IH]; [reflexivity |]. simpl. now rewrite IH. Qed.

Lemma flat_map_nil {A B} (l : list A) : flat_map (fun _ : A => @nil B) l = [].
Proof. induction l as [| a l IH]; [reflexivity | exact IH]. Qed.

Ltac query_render :=
  unfold render;
  repeat (rewrite ?query_Element, ?query_Text; cbn [flat_map app]).

(** The checkboxes are those of the blocks listed, each checked exactly when
    its block is selected. *)
Lemma checkboxes_render (s : State) :
  checkboxes (render s)
  = map (fun b => (block_id b, JSSet.has (selectedXblocks s) (block_id b))) (xblocks s).
Proof.
  unfold checkboxes. query_render.
  rewrite (query_children checkbox_of render_library (fun _ => []))
    by (intros; reflexivity).
  rewrite (query_children checkbox_of (render_block (selectedXblocks s))
             (fun b => [(block_id b, JSSet.has (selectedXblocks s) (block_id b))]))
    by (intros; reflexivity).
  rewrite (query_children checkbox_of render_selected (fun _ => []))
    by (intros; reflexivity).
  rewrite !flat_map_nil, flat_map_singleton. simpl. now rewrite ?app_nil_r.
Qed.

(** The delete buttons are those of the rows of the selection, in its order. *)
Lemma delete_buttons_render (s : State) :
  delete_buttons (render s) = JSSet.to_array (selectedXblocks s).
Proof.
  unfold delete_buttons. query_render.
  rewrite (query_children delete_button_of render_library (fun _ => []))
    by (intros; reflexivity).
  rewrite (query_children delete_button_of (render_block (selectedXblocks s))
             (fun _ => []))
    by (intros; reflexivity).
  rewrite (query_children delete_button_of render_selected (fun v => [v]))
    by (intros; reflexivity).
  rewrite !flat_map_nil, flat_map_singleton, map_id. simpl. now rewrite ?app_nil_r.
Qed.

Lemma rows_render (s : State) :
  rows (render s) = map Some (JSSet.to_array (selectedXblocks s)).
Proof.
  unfold rows. query_render.
  rewrite (query_children row_of render_library (fun _ => []))
    by (intros; reflexivity).
  rewrite (query_children row_of (render_block (selectedXblocks s)) (fun _ => []))
    by (intros; reflexivity).
  rewrite (query_children row_of render_selected (fun v => [Some v]))
    by (intros; reflexivity).
  rewrite !flat_map_nil, flat_map_singleton. simpl. now rewrite ?app_nil_r.
Qed.

Lemma radios_render (s : State) :
  radios (render s) = map lib_id (libraries s).
Proof.
  unfold radios. query_render.
  rewrite (query_children radio_of render_library (fun lib => [lib_id lib]))
    by (intros; reflexivity).
  rewrite (query_children radio_of (render_block (selectedXblocks s)) (fun _ => []))
    by (intros; reflexivity).
  rewrite (query_children radio_of render_selected (fun _ => []))
    by (intros; reflexivity).
  rewrite !flat_map_nil, flat_map_singleton. simpl. now rewrite ?app_nil_r.
Qed.


Lemma has_add (s : JSSet.t) (v b : string) :
  JSSet.has (JSSet.add s v) b = String.eqb b v || JSSet.has s b.
Proof.
  apply Bool.eq_iff_eq_true.
  rewrite orb_true_iff, !has_In, add_In, String.eqb_eq. tauto.
Qed.

Lemma has_delete (s : JSSet.t) (v b : string) :
  JSSet.has (JSSet.delete s v) b = negb (String.eqb b v) && JSSet.has s b.
Proof.
  apply Bool.eq_iff_eq_true.
  rewrite andb_true_iff, negb_true_iff, !has_In, delete_In, String.eqb_neq. tauto.
Qed.

Lemma step_selection_lists (e : Event) (w : World) :
  selection_op e <> None ->
  xblocks (state (step e w)) = xblocks (state w) /\
  libraries (state (step e w)) = libraries (state w).
Proof.
  destruct e; intros H; try (exfalso; apply H; reflexivity);
    unfold_handlers; simpl; split_cases; split; reflexivity.
Qed.

(** X12. After any events on a mounted component, a checkbox shown is checked
    exactly when the last event about its block was an addition, or the block
    was selected at the start and never removed; which blocks are listed
    plays no part. *)
Theorem checked_iff_expected (p : Props.t) (evs : list Event) (v : string) (c : bool) :
  existsb is_Unmount evs = false ->
  In (v, c) (checkboxes (render (state (run evs (constructor p))))) ->
  (c = true <->
   (last_concerning v evs = Some true \/
    (In v (Props.selectedXblocks p) /\ never_removed v evs))).
Proof.
  intros Hu Hin. rewrite checkboxes_render in Hin.
  apply in_map_iff in Hin as (b & [= <- <-] & _).
  destruct (snapshot_spec p evs Hu) as [_ Hsel].
  rewrite has_In, Hsel. apply expected_iff.
Qed.

Lemma checked_iff_expected_witness :
  let evs := [LibrarySelected "L1";
              BlocksResponse 1 [{| block_id := "b1"; display_name := "One" |};
                                {| block_id := "b2"; display_name := "Two" |}];
              XblockSelected true "b2"] in
  checkboxes (render (state (run evs (constructor Props.defaultProps))))
    = [("b1", false); ("b2", true)] /\
  (true = true <->
   (last_concerning "b2" evs = Some true \/
    (In "b2" (Props.selectedXblocks Props.defaultProps) /\ never_removed "b2" evs))).
Proof.
  intros evs. split; [reflexivity |].
  apply (checked_iff_expected Props.defaultProps evs "b2" true);
    [reflexivity | vm_compute; tauto].
Defined.

(** X13. Clicking a checkbox that is shown (the browser reports the opposite of
    what it showed) flips every checkbox of that block and no other, and the
    block's row appears at the end of the selected list or disappears from
    it. *)
Theorem toggle_flips_checkbox (p : Props.t) (evs : list Event) (v : string) (c : bool) :
  existsb is_Unmount evs = false ->
  let before := render (state (run evs (constructor p))) in
  let after := render (state (step (XblockSelected (negb c) v) (run evs (constructor p)))) in
  In (v, c) (checkboxes before) ->
  checkboxes after
  = map (fun vc => if String.eqb (fst vc) v then (fst vc, negb c) else vc)
      (checkboxes before)
  /\
  delete_buttons after
  = (if c then filter (fun y => negb (String.eqb v y)) (delete_buttons before)
     else delete_buttons before ++ [v]).
Proof.
  intros Hu before after Hin. unfold before, after in *.
  destruct (run_selection_NoDup_mounted p evs Hu) as [Hm Hnd].
  set (w := run evs (constructor p)) in *.
  rewrite !checkboxes_render, !delete_buttons_render in *.
  destruct (step_selection_lists (XblockSelected (negb c) v) w) as [-> _];
    [discriminate |].
  rewrite step_selection by exact Hm. cbn [selection_op].
  rewrite of_iterable_copy by exact Hnd.
  apply in_map_iff in Hin as (b & [= Hv Hc] & _).
  rewrite map_map. unfold JSSet.to_array. cbn [fst].
  destruct c; cbn [negb].
  - split; [| reflexivity].
    apply map_ext. intros a. rewrite has_delete.
    destruct (String.eqb (block_id a) v); reflexivity.
  - assert (JSSet.has (selectedXblocks (state w)) v = false) as Hv'
      by (rewrite <- Hv; exact Hc).
    split.
    + apply map_ext. intros a. rewrite has_add.
      destruct (String.eqb (block_id a) v); reflexivity.
    + unfold JSSet.add. now rewrite Hv'.
Qed.

Lemma toggle_flips_checkbox_witness :
  let evs := [LibrarySelected "L1";
              BlocksResponse 1 [{| block_id := "b1"; display_name := "One" |};
                                {| block_id := "b2"; display_name := "Two" |}];
              XblockSelected true "b2"] in
  let w := run evs (constructor Props.defaultProps) in
  checkboxes (render (state (step (XblockSelected (negb false) "b1") w)))
  = map (fun vc => if String.eqb (fst vc) "b1" then (fst vc, negb false) else vc)
      (checkboxes (render (state w)))
  /\
  delete_buttons (render (state (step (XblockSelected (negb false) "b1") w)))
  = delete_buttons (render (state w)) ++ ["b1"].
Proof.
  intros evs w.
  apply (toggle_flips_checkbox Props.defaultProps evs "b1" false);
    [reflexivity | vm_compute; tauto].
Defined.

(** X14. Clicking the delete button of a row removes that row and no other, keeps
    the order of the rest, and unchecks every checkbox of that block. *)
Theorem delete_button_removes_row (p : Props.t) (evs : list Event) (v : string) :
  existsb is_Unmount evs = false ->
  let before := render (state (run evs (constructor p))) in
  let after := render (state (step (DeleteClick v) (run evs (constructor p)))) in
  In v (delete_buttons before) ->
  delete_buttons after = filter (fun y => negb (String.eqb v y)) (delete_buttons before) /\
  ~ In v (delete_buttons after) /\
  S (List.length (delete_buttons after)) = List.length (delete_buttons before) /\
  checkboxes after
  = map (fun vc => if String.eqb (fst vc) v then (fst vc, false) else vc)
      (checkboxes before).
Proof.
  intros Hu before after Hin. unfold before, after in *.
  destruct (run_selection_NoDup_mounted p evs Hu) as [Hm Hnd].
  set (w := run evs (constructor p)) in *.
  rewrite !checkboxes_render, !delete_buttons_render in *.
  destruct (step_selection_lists (DeleteClick v) w) as [-> _]; [discriminate |].
  rewrite step_selection by exact Hm. cbn [selection_op].
  rewrite of_iterable_copy by exact Hnd.
  unfold JSSet.to_array in *. fold (JSSet.delete (selectedXblocks (state w)) v).
  split; [reflexivity |]. split; [rewrite delete_In; tauto |]. split.
  - apply in_split in Hin as (l1 & l2 & Hsplit). rewrite Hsplit in *.
    apply NoDup_remove_2 in Hnd. unfold JSSet.delete.
    rewrite filter_app. simpl. rewrite String.eqb_refl. simpl.
    rewrite !filter_absent; [rewrite !length_app; simpl; lia | |];
      intros H; apply Hnd; rewrite in_app_iff; tauto.
  - rewrite map_map. apply map_ext. intros a. cbn [fst]. rewrite has_delete.
    destruct (String.eqb (block_id a) v); reflexivity.
Qed.

Lemma delete_button_removes_row_witness :
  let p := {| Props.saveUrl := ""; Props.selectedXblocks := ["a"; "b"; "c"] |} in
  let w := run [] (constructor p) in
  delete_buttons (render (state (step (DeleteClick "b") w))) = ["a"; "c"] /\
  S (List.length (delete_buttons (render (state (step (DeleteClick "b") w)))))
  = List.length (delete_buttons (render (state w))).
Proof.
  intros p w.
  destruct (delete_button_removes_row p [] "b" eq_refl) as (H1 & _ & H2 & _);
    [vm_compute; tauto |].
  split; [exact H1 | exact H2].
Defined.

Lemma NoDup_map_Some {A} (l : list A) : NoDup l -> NoDup (map Some l).
Proof.
  induction 1 as [| a l Ha _ IH]; simpl; constructor; [| exact IH].
  rewrite in_map_iff. intros (x & [= ->] & Hx). contradiction.
Qed.

(** X15. The rows of the selected list always have distinct keys, and each has
    the delete button for its own identifier. *)
Theorem rows_have_distinct_keys (p : Props.t) (evs : list Event) :
  let view := render (state (run evs (constructor p))) in
  NoDup (rows view) /\ rows view = map Some (delete_buttons view).
Proof.
  intros view. unfold view. rewrite rows_render, delete_buttons_render.
  split; [| reflexivity]. apply NoDup_map_Some, run_selection_NoDup.
Qed.

Lemma last_library_text_snoc (evs : list Event) (e : Event) :
  last_library_text (evs ++ [e]) =
    match e with
    | LibraryInputChange t => t
    | _ => last_library_text evs
    end.
Proof. unfold last_library_text. rewrite fold_left_app. reflexivity. Qed.

Lemma step_searchedLibrary (e : Event) (w : World) :
  mounted w = true ->
  searchedLibrary (state (step e w)) =
    match e with
    | LibraryInputChange t => t
    | _ => searchedLibrary (state w)
    end.
Proof.
  intros Hm.
  destruct e; try (unfold_handlers; simpl; rewrite ?Hm; simpl; split_cases; congruence).
  cbn [step]. now destruct (elapse_frame d w) as (_ & _ & -> & _).
Qed.

Lemma input_values_render (s : State) :
  input_values "Search for libary" (render s) = [Some (Str (searchedLibrary s))] /\
  input_values "Search for XBlocks" (render s) = [None].
Proof.
  unfold input_values. split; query_render.
  - rewrite (query_children (input_value_of "Search for libary") render_library
               (fun _ => [])) by (intros; reflexivity).
    rewrite (query_children (input_value_of "Search for libary")
               (render_block (selectedXblocks s)) (fun _ => []))
      by (intros; reflexivity).
    rewrite (query_children (input_value_of "Search for libary") render_selected
               (fun _ => [])) by (intros; reflexivity).
    rewrite !flat_map_nil. reflexivity.
  - rewrite (query_children (input_value_of "Search for XBlocks") render_library
               (fun _ => [])) by (intros; reflexivity).
    rewrite (query_children (input_value_of "Search for XBlocks")
               (render_block (selectedXblocks s)) (fun _ => []))
      by (intros; reflexivity).
    rewrite (query_children (input_value_of "Search for XBlocks") render_selected
               (fun _ => [])) by (intros; reflexivity).
    rewrite !flat_map_nil. reflexivity.
Qed.

(** X16. The library search box is given the text typed last as its value, so it
    shows every keystroke at once, before any query; the block search box is
    given no value at all. *)
Theorem library_search_shows_last_text (p : Props.t) (evs : list Event) :
  existsb is_Unmount evs = false ->
  let view := render (state (run evs (constructor p))) in
  input_values "Search for libary" view = [Some (Str (last_library_text evs))] /\
  input_values "Search for XBlocks" view = [None].
Proof.
  intros Hu view. unfold view.
  destruct (input_values_render (state (run evs (constructor p)))) as [-> ->].
  split; [| reflexivity]. do 3 f_equal. clear view.
  induction evs as [| e evs IH] using rev_ind; [reflexivity |].
  rewrite existsb_app in Hu. simpl in Hu. rewrite orb_false_r in Hu.
  apply orb_false_iff in Hu as [Hu He].
  rewrite run_snoc, last_library_text_snoc.
  rewrite step_searchedLibrary by (rewrite run_mounted; [reflexivity | exact Hu]).
  rewrite IH by exact Hu. reflexivity.
Qed.

Lemma library_search_shows_last_text_witness :
  let view := render (state (run [LibraryInputChange "a"; Elapse 10;
                                  LibraryInputChange "al"; XBlockInputChange "quiz"]
                               (constructor Props.defaultProps))) in
  input_values "Search for libary" view = [Some (Str "al")] /\
  input_values "Search for XBlocks" view = [None].
Proof.
  apply (library_search_shows_last_text Props.defaultProps
           [LibraryInputChange "a"; Elapse 10; LibraryInputChange "al";
            XBlockInputChange "quiz"]).
  reflexivity.
Defined.

End Rendering.

(** ** Edges of the message shown when saving fails *)
Section FailEdges.
Import SaveBridge.

Variable gettext : jsstring -> jsstring.
Variable number_truthy : jsstring -> bool.
Variable number_toString : jsstring -> jsstring.
Variable object_elems : list (jsstring * JSValue) -> list JSValue.

Local Abbreviation message :=
  (fail_message gettext number_truthy number_toString object_elems).
Local Abbreviation body_of_try :=
  (try_block number_truthy number_toString object_elems).


(** X18. A body that is the JSON [null], or whose [error] is [null], makes the
    handler read a property of [null]; the [catch] then shows the raw body. *)
Theorem fail_message_null (text : jsstring) (parsed : JSValue) :
  text <> [] ->
  JSON_parse text = Normal parsed ->
  parsed = JNull \/ get parsed (js "error") = Normal JNull ->
  message (Some text) = JString (firstn 300 text).
Proof.
  intros Hne Hparse H.
  rewrite (fail_message_body gettext number_truthy number_toString object_elems)
    by exact Hne.
  unfold try_block. rewrite Hparse. cbn [bind].
  destruct H as [-> | ->]; reflexivity.
Qed.

(** X19. When [error] is an object or an array without a truthy [messages], the
    message is that object itself, not a string. *)
Theorem fail_message_error_without_messages (text : jsstring) (parsed e m : JSValue) :
  text <> [] ->
  JSON_parse text = Normal parsed ->
  get parsed (js "error") = Normal e ->
  typeof_object e = true ->
  get e (js "messages") = Normal m ->
  ToBoolean number_truthy m = false ->
  message (Some text) = e.
Proof.
  intros Hne Hparse Herror Htype Hm Hfalsy.
  rewrite (fail_message_body gettext number_truthy number_toString object_elems)
    by exact Hne.
  unfold try_block. rewrite Hparse. cbn [bind]. rewrite Herror. cbn [bind].
  rewrite Htype, Hm. cbn [bind]. now rewrite Hfalsy.
Qed.

Lemma map_elems_present (msgs : list JSValue) (texts : list (option jsstring)) :
  Forall2 text_of msgs texts ->
  map_elems (fun msg => get msg (js "text")) msgs = Normal (map JString (present texts)).
Proof.
  induction 1 as [| msg t msgs texts Hget _ IH]; [reflexivity |].
  cbn [map_elems]. rewrite IH.
  destruct t as [s |]; [| destruct Hget as [Hget | Hget]];
    cbn [text_of] in Hget; rewrite Hget; reflexivity.
Qed.

(** X20. Entries of [messages] without a [text], or with a [null] one, are left
    out of the joined message; the others are joined in order. *)
Theorem fail_message_skips_missing_texts (text : jsstring) (parsed : JSValue)
  (members : list (jsstring * JSValue)) (msgs : list JSValue)
  (texts : list (option jsstring)) :
  text <> [] ->
  JSON_parse text = Normal parsed ->
  get parsed (js "error") = Normal (JObject members) ->
  get (JObject members) (js "messages") = Normal (JArray msgs) ->
  Forall2 text_of msgs texts ->
  message (Some text) = JString (separated_by (js ", ") (present texts)).
Proof.
  intros Hne Hparse Herror Hmessages Htexts.
  rewrite (fail_message_body gettext number_truthy number_toString object_elems)
    by exact Hne.
  unfold try_block. rewrite Hparse. cbn [bind]. rewrite Herror.
  cbn [bind typeof_object]. rewrite Hmessages.
  cbn [bind ToBoolean jQuery_map].
  rewrite (map_elems_present msgs texts Htexts). cbn [bind].
  rewrite flatten_strings, join_strings. reflexivity.
Qed.

(** X21. Whenever the [try] block throws, the message is a prefix of the raw body
    of at most 300 code units, and the whole body when it is that short. *)
Theorem fail_message_raw_bounded (text : jsstring) :
  text <> [] ->
  body_of_try text = Throw ->
  exists shown,
    message (Some text) = JString shown /\
    List.length shown <= 300 /\
    (exists rest, text = shown ++ rest) /\
    (List.length text <= 300 -> shown = text).
Proof.
  intros Hne Hthrow. exists (firstn 300 text).
  rewrite (fail_message_body gettext number_truthy number_toString object_elems)
    by exact Hne.
  rewrite Hthrow. split; [reflexivity |]. split; [apply firstn_le_length |].
  split; [exists (skipn 300 text); symmetry; apply firstn_skipn |].
  apply firstn_all2.
Qed.

End FailEdges.

Section FailEdgeExamples.
Import SaveBridge.

Let shown := fail_message (fun s => s) (fun _ => true) (fun lexeme => lexeme)
               (fun members => map snd members).


Lemma fail_message_null_witness :
  shown (Some (js "null")) = JString (js "null") /\
  shown (Some (js "{" ++ quoted "error" ++ js ":null}"))
  = JString (js "{" ++ quoted "error" ++ js ":null}").
Proof.
  split.
  - apply (fail_message_null (fun s => s) (fun _ => true)
             (fun lexeme => lexeme) (fun members => map snd members)
             (js "null") JNull);
      [discriminate | vm_compute; reflexivity | left; reflexivity].
  - apply (fail_message_null (fun s => s) (fun _ => true)
             (fun lexeme => lexeme) (fun members => map snd members)
             (js "{" ++ quoted "error" ++ js ":null}")
             (JObject [(js "error", JNull)]));
      [discriminate | vm_compute; reflexivity | right; vm_compute; reflexivity].
Defined.

Lemma fail_message_error_without_messages_witness :
  shown (Some (js "{" ++ quoted "error" ++ js ":{" ++ quoted "code" ++ js ":7}}"))
  = JObject [(js "code", JNumber (js "7"))].
Proof.
  apply (fail_message_error_without_messages (fun s => s) (fun _ => true)
           (fun lexeme => lexeme) (fun members => map snd members)
           (js "{" ++ quoted "error" ++ js ":{" ++ quoted "code" ++ js ":7}}")
           (JObject [(js "error", JObject [(js "code", JNumber (js "7"))])])
           (JObject [(js "code", JNumber (js "7"))]) JUndefined);
    [discriminate | vm_compute; reflexivity | vm_compute; reflexivity | reflexivity
    | vm_compute; reflexivity | reflexivity].
Defined.

Lemma fail_message_skips_missing_texts_witness :
  shown (Some (js "{" ++ quoted "error" ++ js ":{" ++ quoted "messages" ++ js ":[{"
                 ++ quoted "text" ++ js ":" ++ quoted "a" ++ js "},{"
                 ++ quoted "type" ++ js ":" ++ quoted "error" ++ js "},{"
                 ++ quoted "text" ++ js ":null},{"
                 ++ quoted "text" ++ js ":" ++ quoted "b" ++ js "}]}}"))
  = JString (js "a, b").
Proof.
  apply (fail_message_skips_missing_texts (fun s => s) (fun _ => true)
           (fun lexeme => lexeme) (fun members => map snd members) _
           (JObject [(js "error",
              JObject [(js "messages",
                JArray [JObject [(js "text", JString (js "a"))];
                        JObject [(js "type", JString (js "error"))];
                        JObject [(js "text", JNull)];
                        JObject [(js "text", JString (js "b"))]])])])
           [(js "messages",
                JArray [JObject [(js "text", JString (js "a"))];
                        JObject [(js "type", JString (js "error"))];
                        JObject [(js "text", JNull)];
                        JObject [(js "text", JString (js "b"))]])]
           [JObject [(js "text", JString (js "a"))];
            JObject [(js "type", JString (js "error"))];
            JObject [(js "text", JNull)];
            JObject [(js "text", JString (js "b"))]]
           [Some (js "a"); None; None; Some (js "b")]);
    [discriminate | vm_compute; reflexivity | vm_compute; reflexivity
    | vm_compute; reflexivity |].
  apply Forall2_cons; [vm_compute; reflexivity |].
  apply Forall2_cons; [left; vm_compute; reflexivity |].
  apply Forall2_cons; [right; vm_compute; reflexivity |].
  apply Forall2_cons; [vm_compute; reflexivity | apply Forall2_nil].
Defined.

Lemma fail_message_raw_bounded_witness :
  exists text,
    shown (Some body_html) = JString text /\
    List.length text <= 300 /\
    (exists rest, body_html = text ++ rest) /\
    (List.length body_html <= 300 -> text = body_html).
Proof.
  apply (fail_message_raw_bounded (fun s => s) (fun _ => true)
           (fun lexeme => lexeme) (fun members => map snd members) body_html);
    [discriminate | vm_compute; reflexivity].
Defined.

End FailEdgeExamples.

Section RoundTrip.
Import SaveBridge.

Lemma hex_hex_digit (n : N) : (n < 16)%N -> hex (hex_digit n) = Some n.
Proof.
  intros H. unfold hex, hex_digit, is_digit.
  destruct (N.ltb_spec n 10).
  - replace ((48 <=? n + 48) && (n + 48 <=? 57))%N with true
      by (symmetry; apply andb_true_iff; split; apply N.leb_le; lia).
    f_equal. lia.
  - replace ((48 <=? n + 87) && (n + 87 <=? 57))%N with false
      by (symmetry; apply andb_false_iff; right; apply N.leb_gt; lia).
    replace ((65 <=? n + 87) && (n + 87 <=? 70))%N with false
      by (symmetry; apply andb_false_iff; right; apply N.leb_gt; lia).
    replace ((97 <=? n + 87) && (n + 87 <=? 102))%N with true
      by (symmetry; apply andb_true_iff; split; apply N.leb_le; lia).
    f_equal. lia.
Qed.

Lemma unicode_digits (c : N) :
  (c < 65536)%N ->
  (c / 4096 < 16 /\ (c / 256) mod 16 < 16 /\ (c / 16) mod 16 < 16 /\ c mod 16 < 16 /\
   4096 * (c / 4096) + 256 * ((c / 256) mod 16) + 16 * ((c / 16) mod 16) + c mod 16 = c)%N.
Proof.
  intros H.
  pose proof (N.div_mod c 16 ltac:(lia)).
  pose proof (N.div_mod (c / 16) 16 ltac:(lia)).
  pose proof (N.div_mod (c / 256) 16 ltac:(lia)).
  pose proof (N.mod_lt c 16 ltac:(lia)).
  pose proof (N.mod_lt (c / 16) 16 ltac:(lia)).
  pose proof (N.mod_lt (c / 256) 16 ltac:(lia)).
  assert (c / 16 / 16 = c / 256)%N by (rewrite N.Div0.div_div; reflexivity).
  assert (c / 256 / 16 = c / 4096)%N by (rewrite N.Div0.div_div; reflexivity).
  assert (c / 4096 < 16)%N by (apply N.Div0.div_lt_upper_bound; lia).
  repeat split; try assumption. lia.
Qed.

Lemma unicode_escape_parse (c : N) (l : jsstring) :
  (c < 65536)%N ->
  parse_chars (unicode_escape c ++ l) = cons_char c (parse_chars l).
Proof.
  intros H. destruct (unicode_digits c H) as (H3 & H2 & H1 & H0 & Hsum).
  unfold unicode_escape. cbn [app parse_chars].
  change (92 =? 34)%N with false. change (92 =? 92)%N with true.
  change (117 =? 117)%N with true. cbv iota.
  rewrite !hex_hex_digit by assumption. now rewrite Hsum.
Qed.

Lemma short_escape_parse (c e : N) (l : jsstring) :
  short_escape c = Some e ->
  parse_chars (92%N :: e :: l) = cons_char c (parse_chars l).
Proof.
  unfold short_escape. intros H.
  repeat match type of H with
    | context [(c =? ?k)%N] =>
        destruct (N.eqb_spec c k); [subst; injection H as <-; reflexivity |]
    end.
  discriminate H.
Qed.

Lemma short_escape_None (c : N) :
  short_escape c = None -> (c =? 34)%N = false /\ (c =? 92)%N = false.
Proof.
  unfold short_escape. intros H.
  repeat match type of H with
    | context [(c =? ?k)%N] => destruct (N.eqb_spec c k); [discriminate H |]
    end.
  split; reflexivity.
Qed.

Lemma verbatim_parse (c : N) (l : jsstring) :
  (c =? 34)%N = false -> (c =? 92)%N = false -> (c <? 32)%N = false ->
  parse_chars (c :: l) = cons_char c (parse_chars l).
Proof. intros H1 H2 H3. cbn [parse_chars]. now rewrite H1, H2, H3. Qed.

Lemma surrogate_verbatim (c : N) (l : jsstring) :
  is_leading_surrogate c = true \/ is_trailing_surrogate c = true ->
  parse_chars (c :: l) = cons_char c (parse_chars l).
Proof.
  unfold is_leading_surrogate, is_trailing_surrogate.
  intros H. apply verbatim_parse;
    [apply N.eqb_neq | apply N.eqb_neq | apply N.ltb_ge];
    destruct H as [H | H]; apply andb_true_iff in H as [H _];
    apply N.leb_le in H; lia.
Qed.

Lemma quote_chars_parse (n : nat) :
  forall s rest, List.length s <= n -> units s ->
                 parse_chars (quote_chars s ++ 34%N :: rest) = Some (s, rest).
Proof.
  induction n as [| n IH]; intros s rest Hn Hu.
  - destruct s; [reflexivity | simpl in Hn; lia].
  - destruct s as [| c s]; [reflexivity |].
    simpl in Hn. inversion Hu as [| ? ? Hc Hs]; subst.
    assert (forall s', List.length s' <= n -> units s' ->
                       cons_char c (parse_chars (quote_chars s' ++ 34%N :: rest))
                       = Some (c :: s', rest)) as Hnext
      by (intros s' Hl Hu'; now rewrite IH).
    cbn [quote_chars].
    destruct (short_escape c) as [e |] eqn:He.
    + cbn [app]. rewrite (short_escape_parse c e _ He). apply Hnext; [lia | exact Hs].
    + destruct (short_escape_None c He) as [H34 H92].
      destruct (c <? 32)%N eqn:H32.
      * rewrite <- app_assoc, unicode_escape_parse by exact Hc.
        apply Hnext; [lia | exact Hs].
      * destruct (is_leading_surrogate c) eqn:Hlead.
        -- destruct s as [| c2 s2].
           ++ rewrite unicode_escape_parse by exact Hc. reflexivity.
           ++ inversion Hs as [| ? ? Hc2 Hs2]; subst. simpl in Hn.
              destruct (is_trailing_surrogate c2) eqn:Htrail.
              ** cbn [app]. rewrite verbatim_parse by assumption.
                 rewrite surrogate_verbatim by (right; exact Htrail).
                 rewrite IH by (assumption || lia). reflexivity.
              ** rewrite <- app_assoc, unicode_escape_parse by exact Hc.
                 apply Hnext; [simpl; lia | exact Hs].
        -- destruct (is_trailing_surrogate c) eqn:Htrail.
           ++ rewrite <- app_assoc, unicode_escape_parse by exact Hc.
              apply Hnext; [lia | exact Hs].
           ++ cbn [app]. rewrite verbatim_parse by assumption.
              apply Hnext; [lia | exact Hs].
Qed.

Lemma QuoteJSONString_parse (s rest : jsstring) :
  units s -> parse_chars (quote_chars s ++ 34%N :: rest) = Some (s, rest).
Proof. apply (quote_chars_parse (List.length s)). lia. Qed.


Variable number_json : jsstring -> jsstring.

(** The text of a value as an element of an array. *)
Local Abbreviation text v :=
  (match JSON_stringify number_json v return jsstring with
   | Some t => t
   | None => js "null"
   end).

Local Abbreviation member_text kv :=
  (QuoteJSONString (fst kv) ++ js ":" ++ text (snd kv)).

Lemma plain_array (vs : list JSValue) : plain (JArray vs) <-> Forall plain vs.
Proof.
  induction vs as [| v vs IH]; cbn [plain]; [split; constructor |].
  cbn [plain] in IH. rewrite IH. split.
  - intros [H1 H2]. now constructor.
  - intros H. inversion H. tauto.
Qed.

Lemma plain_object (ms : list (jsstring * JSValue)) :
  plain (JObject ms) <-> Forall (fun kv => units (fst kv) /\ plain (snd kv)) ms.
Proof.
  induction ms as [| kv ms IH]; cbn [plain]; [split; constructor |].
  cbn [plain] in IH. rewrite IH. split.
  - intros [H1 H2]. now constructor.
  - intros H. inversion H. tauto.
Qed.

Lemma stringify_plain (v : JSValue) :
  plain v -> JSON_stringify number_json v = Some (text v).
Proof. destruct v; cbn [plain]; intros H; try contradiction; reflexivity. Qed.

Lemma members_text (ms : list (jsstring * JSValue)) :
  Forall (fun kv => units (fst kv) /\ plain (snd kv)) ms ->
  flat_map (fun kv => match JSON_stringify number_json (snd kv) with
                      | Some t => [QuoteJSONString (fst kv) ++ js ":" ++ t]
                      | None => []
                      end) ms
  = map (fun kv => member_text kv) ms.
Proof.
  induction 1 as [| kv ms [_ Hp] _ IH]; [reflexivity |].
  cbn [flat_map map]. rewrite IH, (stringify_plain _ Hp). reflexivity.
Qed.

Lemma text_starts_value (v : JSValue) (rest : jsstring) :
  plain v -> starts_value (text v ++ rest).
Proof.
  destruct v as [| | [|] | | | |]; cbn [plain]; intros H; try contradiction;
    cbn; repeat split.
Qed.

Lemma skip_ws_starts_value (l : jsstring) : starts_value l -> skip_ws l = l.
Proof.
  destruct l as [| c l]; [intros [] |]. intros (H & _).
  cbn [skip_ws]. now rewrite H.
Qed.

Lemma not_closing_bracket (l : jsstring) :
  starts_value l -> strip_prefix [93%N] l = None /\ strip_prefix [125%N] l = None.
Proof.
  destruct l as [| c l]; [intros [] |]. intros (_ & H1 & H2).
  cbn [strip_prefix]. now rewrite H1, H2.
Qed.

Lemma strip_quote (l : jsstring) : strip_prefix [34%N] (skip_ws (34%N :: l)) = Some l.
Proof. reflexivity. Qed.

Lemma strip_colon (l : jsstring) : strip_prefix [58%N] (skip_ws (58%N :: l)) = Some l.
Proof. reflexivity. Qed.

Lemma skip_comma (l : jsstring) : skip_ws (44%N :: l) = 44%N :: l.
Proof. reflexivity. Qed.

Lemma separated_cons (sep x y : jsstring) (l : list jsstring) :
  separated_by sep (x :: y :: l) = x ++ sep ++ separated_by sep (y :: l).
Proof. reflexivity. Qed.

(** Parsing gives back the value the text was written from, for every fuel
    that covers the size of the value. *)
Lemma parse_text (n : nat) :
  forall v, size v <= n -> plain v ->
  forall fuel rest, size v <= fuel ->
    parse_value fuel (text v ++ rest) = Parsed v rest.
Proof.
  induction n as [| n IH]; intros v Hn Hp fuel rest Hf.
  - destruct v; simpl in Hn; lia.
  - assert (forall vs, elems_size vs <= n -> Forall plain vs -> vs <> [] ->
            forall fuel rest, elems_size vs <= fuel ->
              parse_elements fuel (separated_by (js ",") (map (fun e => text e) vs)
                                     ++ 93%N :: rest)
              = Parsed vs rest) as Helems.
    { induction vs as [| x vs IHvs]; intros Hs Hall Hne f r Hfuel; [congruence |].
      inversion Hall as [| ? ? Hx Hvs]; subst.
      unfold elems_size in *. cbn [fold_right] in Hs, Hfuel.
      destruct f as [| f]; [lia |]. cbn [parse_elements].
      destruct vs as [| y vs].
      - cbn [map separated_by].
        rewrite skip_ws_starts_value by (apply text_starts_value; exact Hx).
        rewrite IH by (assumption || lia). reflexivity.
      - cbn [map]. rewrite separated_cons, <- !app_assoc.
        rewrite skip_ws_starts_value by (apply text_starts_value; exact Hx).
        rewrite IH by (assumption || lia).
        change (js ",") with [44%N]. cbn [app].
        rewrite skip_comma. change (44 =? 44)%N with true. cbv iota.
        cbn [map] in IHvs. change (js ",") with [44%N] in IHvs.
        rewrite IHvs by (assumption || lia || discriminate).
        reflexivity. }
    assert (forall ms, members_size ms <= n ->
            Forall (fun kv => units (fst kv) /\ plain (snd kv)) ms -> ms <> [] ->
            forall fuel rest, members_size ms <= fuel ->
              parse_members fuel (separated_by (js ",") (map (fun kv => member_text kv) ms)
                                    ++ 125%N :: rest)
              = Parsed ms rest) as Hmembers.
    { induction ms as [| [k x] ms IHms]; intros Hs Hall Hne f r Hfuel; [congruence |].
      inversion Hall as [| ? ? [Hk Hx] Hms]; subst. cbn [fst snd] in Hk, Hx.
      unfold members_size in *. cbn [fold_right snd] in Hs, Hfuel.
      destruct f as [| f]; [lia |]. cbn [parse_members].
      destruct ms as [| y ms].
      - cbn [map separated_by fst snd]. unfold QuoteJSONString.
        change (js ":") with [58%N].
        repeat (rewrite <- app_assoc || cbn [app]).
        rewrite strip_quote, QuoteJSONString_parse by exact Hk.
        rewrite strip_colon.
        rewrite skip_ws_starts_value by (apply text_starts_value; exact Hx).
        rewrite IH by (assumption || lia). reflexivity.
      - cbn [map fst snd]. rewrite separated_cons. unfold QuoteJSONString at 1.
        change (js ":") with [58%N]. change (js ",") with [44%N].
        repeat (rewrite <- app_assoc || cbn [app]).
        rewrite strip_quote, QuoteJSONString_parse by exact Hk.
        rewrite strip_colon.
        rewrite skip_ws_starts_value by (apply text_starts_value; exact Hx).
        rewrite IH by (assumption || lia).
        rewrite skip_comma. change (44 =? 44)%N with true. cbv iota.
        cbn [map fst snd] in IHms. change (js ",") with [44%N] in IHms.
        rewrite IHms by (assumption || lia || discriminate).
        reflexivity. }
    destruct fuel as [| fuel]; [destruct v; simpl in Hf; lia |].
    destruct v as [| | b | | s | vs | ms]; cbn [plain] in Hp; try contradiction.
    + reflexivity.
    + destruct b; reflexivity.
    + cbn [JSON_stringify]. unfold QuoteJSONString.
      repeat (rewrite <- app_assoc || cbn [app]). cbn [parse_value].
      change (34 =? 34)%N with true. cbv iota.
      now rewrite QuoteJSONString_parse by exact Hp.
    + change (plain (JArray vs)) in Hp. apply plain_array in Hp.
      cbn [size] in Hn, Hf. fold (elems_size vs) in Hn, Hf.
      destruct vs as [| x vs]; [reflexivity |].
      cbn [JSON_stringify]. change (js "[") with [91%N]. change (js "]") with [93%N].
      repeat (rewrite <- app_assoc || cbn [app]). cbn [parse_value].
      change (91 =? 34)%N with false. change (91 =? 91)%N with true. cbv iota.
      assert (starts_value (separated_by (js ",") (map (fun e => text e) (x :: vs))
                              ++ 93%N :: rest)) as Hstart.
      { inversion Hp; subst. destruct vs; cbn [map]; [cbn [separated_by] |
          rewrite separated_cons, <- !app_assoc]; now apply text_starts_value. }
      rewrite (skip_ws_starts_value _ Hstart).
      destruct (not_closing_bracket _ Hstart) as [-> _].
      rewrite Helems by (assumption || lia || discriminate). reflexivity.
    + change (plain (JObject ms)) in Hp. apply plain_object in Hp.
      cbn [size] in Hn, Hf. fold (members_size ms) in Hn, Hf.
      destruct ms as [| kv ms]; [reflexivity |].
      cbn [JSON_stringify]. rewrite (members_text _ Hp).
      change (js "{") with [123%N]. change (js "}") with [125%N].
      repeat (rewrite <- app_assoc || cbn [app]). cbn [parse_value].
      change (123 =? 34)%N with false. change (123 =? 91)%N with false.
      change (123 =? 123)%N with true. cbv iota.
      assert (starts_value (separated_by (js ",") (map (fun kv => member_text kv) (kv :: ms))
                              ++ 125%N :: rest)) as Hstart.
      { destruct ms; cbn [map]; [cbn [separated_by] |
          rewrite separated_cons]; unfold QuoteJSONString; cbn; repeat split. }
      rewrite (skip_ws_starts_value _ Hstart).
      destruct (not_closing_bracket _ Hstart) as [_ ->].
      rewrite Hmembers by (assumption || lia || discriminate). reflexivity.
Qed.

Lemma separated_length (sep x : jsstring) (l : list jsstring) :
  List.length (separated_by sep (x :: l))
  = List.length x + match l with
                    | [] => 0
                    | y :: l' => List.length sep + List.length (separated_by sep (y :: l'))
                    end.
Proof.
  destruct l as [| y l]; [cbn [separated_by]; lia |].
  rewrite separated_cons, !length_app. reflexivity.
Qed.

Lemma separated_size {A : Type} (f : A -> nat) (g : A -> jsstring) (xs : list A) :
  Forall (fun x => f x <= List.length (g x)) xs ->
  fold_right (fun x n => S (f x + n)) 0 xs
  <= S (List.length (separated_by [44%N] (map g xs))).
Proof.
  induction 1 as [| x xs Hx Hxs IHxs]; [cbn; lia |].
  cbn [fold_right map]. rewrite separated_length.
  destruct xs as [| y xs]; [cbn [fold_right map]; lia |].
  cbn [map] in IHxs |- *. cbn [List.length]. lia.
Qed.

Lemma text_length (n : nat) :
  forall v, size v <= n -> plain v -> size v <= List.length (text v).
Proof.
  induction n as [| n IH]; intros v Hn Hp; [destruct v; simpl in Hn; lia |].
  destruct v as [| | b | | s | vs | ms]; cbn [plain] in Hp; try contradiction.
  - cbn. lia.
  - destruct b; cbn; lia.
  - cbn [JSON_stringify size]. unfold QuoteJSONString. cbn [List.length]. lia.
  - change (plain (JArray vs)) in Hp. apply plain_array in Hp.
    cbn [size] in *. fold (elems_size vs) in *.
    cbn [JSON_stringify]. change (js "[") with [91%N]. change (js "]") with [93%N].
    change (js ",") with [44%N].
    rewrite !length_app. cbn [List.length].
    pose proof (separated_size size (fun e => text e) vs) as Hsep.
    fold (elems_size vs) in Hsep.
    assert (Forall (fun x => size x <= List.length (text x)) vs) as Hall.
    { assert (elems_size vs <= n) as Hs by lia. clear Hn Hsep.
      induction Hp as [| x vs Hx Hvs IHvs]; constructor;
        unfold elems_size in Hs; cbn [fold_right] in Hs; fold (elems_size vs) in Hs.
      - apply IH; [lia | exact Hx].
      - apply IHvs. lia. }
    specialize (Hsep Hall). lia.
  - change (plain (JObject ms)) in Hp. apply plain_object in Hp.
    cbn [size] in *. fold (members_size ms) in *.
    cbn [JSON_stringify]. rewrite (members_text _ Hp).
    change (js "{") with [123%N]. change (js "}") with [125%N].
    change (js ",") with [44%N].
    rewrite !length_app. cbn [List.length].
    pose proof (separated_size (fun kv => size (snd kv)) (fun kv => member_text kv) ms)
      as Hsep.
    fold (members_size ms) in Hsep.
    assert (Forall (fun kv => size (snd kv) <= List.length (member_text kv)) ms) as Hall.
    { assert (members_size ms <= n) as Hs by lia. clear Hn Hsep.
      induction Hp as [| kv ms [_ Hx] Hms IHms]; constructor;
        unfold members_size in Hs; cbn [fold_right] in Hs; fold (members_size ms) in Hs.
      - rewrite !length_app. specialize (IH (snd kv) ltac:(lia) Hx). lia.
      - apply IHms. lia. }
    specialize (Hsep Hall).
    rewrite Nat.add_1_r. apply le_n_S. exact Hsep.
Qed.

(** Writing a plain value with [JSON.stringify] and reading the text with
    [JSON.parse] gives the value back. *)
Lemma stringify_parse (v : JSValue) :
  plain v ->
  exists t, JSON_stringify number_json v = Some t /\ JSON_parse t = Normal v.
Proof.
  intros Hp. exists (text v). split; [now apply stringify_plain |].
  unfold JSON_parse.
  pose proof (text_starts_value v [] Hp) as Hstart. rewrite app_nil_r in Hstart.
  rewrite (skip_ws_starts_value _ Hstart).
  pose proof (parse_text (size v) v (le_n _) Hp
                (2 * List.length (text v) + 2) []) as Hparse.
  rewrite app_nil_r in Hparse. rewrite Hparse; [reflexivity |].
  pose proof (text_length (size v) v (le_n _) Hp). lia.
Qed.

Lemma N_ascii_bounded_65536 (a : ascii) : (N_of_ascii a < 65536)%N.
Proof. pose proof (N_ascii_bounded a). lia. Qed.

Lemma js_units (s : string) : units (js s).
Proof.
  unfold units, js. apply Forall_forall. intros c Hin.
  apply in_map_iff in Hin as (a & <- & _). apply N_ascii_bounded_65536.
Qed.

Lemma plain_strings (l : list string) :
  plain (JArray (map (fun x => JString (js x)) l)).
Proof.
  apply plain_array, Forall_forall. intros v Hin.
  apply in_map_iff in Hin as (x & <- & _). cbn [plain]. apply js_units.
Qed.

Lemma plain_data_value (d : SaveData) : plain (data_value d).
Proof.
  unfold data_value. apply plain_object.
  repeat constructor; cbn [fst snd]; try apply js_units; try apply plain_strings.
Qed.

(** X22. The body of the request that the 'save' handler sends, the text
    that [JSON.stringify] writes for [data], is read back by [JSON.parse] as
    the object that holds the ids of the blocks handed over, in their order,
    under [values.source_block_ids], and ['display_name'] alone under
    [defaults]. *)
Theorem save_body_round_trip (params : Picker.SaveParams) :
  exists body,
    JSON_stringify number_json (data_value (ajax_data (on_save params))) = Some body
    /\ JSON_parse body
       = Normal (JObject
                   [(js "values",
                     JObject [(js "source_block_ids",
                               JArray (map (fun id => JString (js id))
                                         (Picker.source_block_ids params)))]);
                    (js "defaults", JArray [JString (js "display_name")])]).
Proof.
  exact (stringify_parse _ (plain_data_value (ajax_data (on_save params)))).
Qed.
End RoundTrip.
